(** * CodeGuard static analysis entry point: extraction and fusion

    A shallow embedding of [StaticAnalysis/code/analyze.py]
    ([extract_functions] and [analyze_file]) together with the properties
    of the function extractor and of the prediction fusion loop. *)

From Stdlib Require Import String Ascii List Arith ZArith NArith QArith Bool Lia.
From Stdlib Require Import Sorted DecimalString DecimalNat.
Import ListNotations.

Set Implicit Arguments.
Local Open Scope list_scope.
Local Open Scope nat_scope.

(** ** Python values *)

(** A Python [str] is a sequence of Unicode code points. *)
Definition char := N.
Definition pystr := list char.

(** A literal of the source, written as a Rocq string. *)
Definition py (s : string) : pystr := map N_of_ascii (list_ascii_of_string s).

Definition NL : char := 10%N.      (* '\n' *)
Definition LPAREN : char := 40%N.  (* '(' *)
Definition RPAREN : char := 41%N.  (* ')' *)
Definition LBRACE : char := 123%N. (* '{' *)
Definition RBRACE : char := 125%N. (* '}' *)

(** [str(n)] for a non-negative [int]: decimal digits, no leading zero. *)
Definition str_of_nat (n : nat) : pystr := py (NilEmpty.string_of_uint (Nat.to_uint n)).

(** [s.count(c)] for a one-character [c]. *)
Definition count (c : char) (s : pystr) : Z := Z.of_nat (count_occ N.eq_dec s c).

(** [s.split('\n')]: always at least one piece, pieces free of ['\n']. *)
Fixpoint split_nl (s : pystr) : list pystr :=
  match s with
  | [] => [[]]
  | c :: s' =>
      if N.eqb c NL then [] :: split_nl s'
      else match split_nl s' with
           | l :: ls => (c :: l) :: ls
           | [] => [[c]]
           end
  end.

(** ['\n'.join(ls)]. *)
Fixpoint join_nl (ls : list pystr) : pystr :=
  match ls with
  | [] => []
  | [l] => l
  | l :: ls' => l ++ NL :: join_nl ls'
  end.

(** ** Regular expressions, as far as [function_pattern] needs them *)

(** The character classes [\w] and [\s] of a [str] pattern follow the
    Unicode tables of the interpreter; the development is parametric in
    them. *)
Class CharTables := {
  is_word : char -> bool;   (* \w *)
  is_space : char -> bool   (* \s *)
}.

Definition in_range (lo hi c : N) : bool := (N.leb lo c && N.leb c hi)%bool.

(** The tables restricted to code points below 128: [\w] is
    [[A-Za-z0-9_]], [\s] is [[ \t\n\r\f\v]] and the four separators
    [\x1c]..[\x1f]. *)
Definition ascii_tables : CharTables := {|
  is_word c := (in_range 48 57 c || in_range 65 90 c || in_range 97 122 c
                || N.eqb c 95)%bool;
  is_space c := (in_range 9 13 c || in_range 28 32 c)%bool
|}.

Inductive regex : Type :=
| Void                         (* matches nothing *)
| Eps                          (* matches the empty string *)
| Lit (c : char)               (* an escaped literal such as \( *)
| NotLit (c : char)            (* a negated one-character set such as [^)] *)
| Word                         (* \w *)
| Space                        (* \s *)
| Cat (r1 r2 : regex)
| Alt (r1 r2 : regex)
| Star (r : regex).

Definition Plus (r : regex) : regex := Cat r (Star r).   (* r+ *)
Definition Opt (r : regex) : regex := Alt r Eps.          (* r? *)

(** [r'(\w+\s+)?(\w+)\s*\([^)]*\)\s*\{'] *)
Definition function_pattern : regex :=
  Cat (Opt (Cat (Plus Word) (Plus Space)))
 (Cat (Plus Word)
 (Cat (Star Space)
 (Cat (Lit LPAREN)
 (Cat (Star (NotLit RPAREN))
 (Cat (Lit RPAREN)
 (Cat (Star Space)
      (Lit LBRACE))))))).

Fixpoint nullable (r : regex) : bool :=
  match r with
  | Void | Lit _ | NotLit _ | Word | Space => false
  | Eps | Star _ => true
  | Cat r1 r2 => nullable r1 && nullable r2
  | Alt r1 r2 => nullable r1 || nullable r2
  end.

(** [mandatory c r]: every string of [r] contains the character [c]
    (a syntactic sufficient condition). *)
Fixpoint mandatory (c : char) (r : regex) : bool :=
  match r with
  | Void => true
  | Lit a => N.eqb c a
  | Eps | NotLit _ | Word | Space | Star _ => false
  | Cat r1 r2 => mandatory c r1 || mandatory c r2
  | Alt r1 r2 => mandatory c r1 && mandatory c r2
  end.

(** A function unit: the dictionary with keys ['code'], ['start_line'] and
    ['end_line'] (1-based, inclusive). *)
Record FunctionUnit := {
  code : pystr;
  start_line : nat;
  end_line : nat
}.

Section Matching.
Context {T : CharTables}.

(** Brzozowski derivative: the strings [s] with [c :: s] in [r]. *)
Fixpoint deriv (c : char) (r : regex) : regex :=
  match r with
  | Void | Eps => Void
  | Lit a => if N.eqb c a then Eps else Void
  | NotLit a => if N.eqb c a then Void else Eps
  | Word => if is_word c then Eps else Void
  | Space => if is_space c then Eps else Void
  | Cat r1 r2 =>
      if nullable r1 then Alt (Cat (deriv c r1) r2) (deriv c r2)
      else Cat (deriv c r1) r2
  | Alt r1 r2 => Alt (deriv c r1) (deriv c r2)
  | Star r1 => Cat (deriv c r1) (Star r1)
  end.

(** [re.match(r, s) is not None]: some prefix of [s] is in [r]. *)
Fixpoint re_match (r : regex) (s : pystr) : bool :=
  nullable r ||
  match s with
  | [] => false
  | c :: s' => re_match (deriv c r) s'
  end.

(** [re.search(r, s) is not None]: a match starts at some position. *)
Fixpoint re_search (r : regex) (s : pystr) : bool :=
  re_match r s ||
  match s with
  | [] => false
  | _ :: s' => re_search r s'
  end.

(** ** [extract_functions] *)

(** The inner loop [for j in range(i, len(lines))], run on the suffix
    [lines[i:]]: returns the final [brace_count] and [function_lines]. *)
Fixpoint find_body (rest : list pystr) (brace_count : Z)
         (function_lines : list pystr) : Z * list pystr :=
  match rest with
  | [] => (brace_count, function_lines)
  | l :: rest' =>
      let function_lines := function_lines ++ [l] in
      let brace_count := (brace_count + (count LBRACE l - count RBRACE l))%Z in
      if (brace_count =? 0)%Z then (brace_count, function_lines)
      else find_body rest' brace_count function_lines
  end.

(** The outer loop [for i, line in enumerate(lines)]; [rest] is
    [lines[i:]] and [functions] the list built so far. *)
Fixpoint scan_lines (i : nat) (rest : list pystr)
         (functions : list FunctionUnit) : list FunctionUnit :=
  match rest with
  | [] => functions
  | line :: rest' =>
      let functions :=
        if re_search function_pattern line then
          let start_line := i in
          let '(brace_count, function_lines) := find_body rest 0%Z [] in
          if (brace_count =? 0)%Z then
            functions ++ [ {| code := join_nl function_lines;
                              start_line := start_line + 1;
                              end_line := start_line + length function_lines |} ]
          else functions
        else functions in
      scan_lines (S i) rest' functions
  end.

Definition extract_functions (code : pystr) : list FunctionUnit :=
  let lines := split_nl code in
  let functions := scan_lines 0 lines [] in
  match functions with
  | [] => [ {| code := code; start_line := 1; end_line := length lines |} ]
  | _ :: _ => functions
  end.

End Matching.

(** ** Exceptions and the error monad *)

Inductive exn : Type :=
| KeyError (key : pystr)      (* a missing dictionary key *)
| IndexError                  (* a list index out of range *)
| OtherError (msg : pystr).   (* any other [Exception] [e], [str(e) = msg] *)

(** [str(e)] *)
Definition str_exn (e : exn) : pystr :=
  match e with
  | KeyError key => py "'" ++ key ++ py "'"
  | IndexError => py "list index out of range"
  | OtherError msg => msg
  end.

(** A computation that returns a value or raises. *)
Definition M (A : Type) : Type := (exn + A)%type.

Definition ret {A} (a : A) : M A := inr a.
Definition raise {A} (e : exn) : M A := inl e.
Definition bind {A B} (m : M A) (k : A -> M B) : M B :=
  match m with
  | inl e => inl e
  | inr a => k a
  end.

Notation "x <- m ;; k" := (bind m (fun x => k))
  (at level 61, m at next level, right associativity).

(** [d[key]] on a dictionary whose entry for [key] is [field]. *)
Definition getkey {A} (key : string) (field : option A) : M A :=
  match field with
  | Some v => ret v
  | None => raise (KeyError (py key))
  end.

(** [l[i]] for a list and [i >= 0]. *)
Definition getitem {A} (l : list A) (i : nat) : M A :=
  match nth_error l i with
  | Some v => ret v
  | None => raise IndexError
  end.

(** [d[key][i] if key in d else default] *)
Definition getitem_or {A} (field : option (list A)) (i : nat) (default : A) : M A :=
  match field with
  | Some l => getitem l i
  | None => ret default
  end.

(** ** Numbers *)

(** A [float] score or probability is modelled by the rational it
    denotes: comparisons of finite floats are those of their values. *)
Definition Qgtb (x y : Q) : bool := negb (Qle_bool x y).

(** [max(l)] for the non-empty list [x :: rest]: the running maximum is
    replaced only by a strictly greater item. *)
Definition py_max (x : Q) (rest : list Q) : Q :=
  fold_left (fun maxval item => if Qgtb item maxval then item else maxval) rest x.

(** [l.index(x)]: the first position whose item equals [x].  Python raises
    [ValueError] when there is none; the only call passes [max(l)], which
    is found, and the model then returns [len(l)]. *)
Fixpoint py_index (x : Q) (l : list Q) : nat :=
  match l with
  | [] => 0
  | y :: l' => if Qeq_bool y x then 0 else S (py_index x l')
  end.

(** Rounding of [n / d] to the nearest integer, halves to even
    ([0 <= n], [0 < d]). *)
Definition round_half_even (n d : Z) : Z :=
  let q := (n / d)%Z in
  let r := (n mod d)%Z in
  if (2 * r <? d)%Z then q
  else if (d <? 2 * r)%Z then (q + 1)%Z
  else if Z.even q then q else (q + 1)%Z.

Definition two_digits (n : nat) : pystr :=
  if n <? 10 then py "0" ++ str_of_nat n else str_of_nat n.

(** [f'{x:.2f}'] *)
Definition format_2f (x : Q) : pystr :=
  let h := round_half_even (Z.abs (Qnum x) * 100) (Zpos (Qden x)) in
  (if (Qnum x <? 0)%Z then py "-" else [])
    ++ str_of_nat (Z.to_nat (h / 100)) ++ py "."
    ++ two_digits (Z.to_nat (h mod 100)).

(** ** Prediction bundles and findings *)

(** The dictionary returned by [main]; a key that is not in the
    dictionary is [None]. *)
Record VulnResult := {
  batch_vul_pred : option (list Z);
  batch_vul_pred_prob : option (list Q);
  batch_line_scores : option (list (list Q))
}.

(** The dictionary returned by [main_cwe]. *)
Record CweResult := {
  cwe_id : option (list pystr);
  cwe_id_prob : option (list Q)
}.

(** The dictionary returned by [main_sev]. *)
Record SevResult := {
  batch_sev_class : option (list pystr);
  batch_sev_score : option (list Q)
}.

(** One entry of ['vulnerabilities']. *)
Record Finding := {
  id : pystr;
  type : pystr;
  severity : pystr;
  message : pystr;
  line : nat;
  cweId : pystr;
  cweDescription : pystr;
  source : pystr;
  probability : Q;
  severityScore : Q
}.

(** The dictionary returned by [analyze_file]. *)
Record AnalysisResult := {
  vulnerabilities : list Finding;
  errors : list pystr
}.

(** ** The fusion loop of [analyze_file] *)

Section Fusion.
Variable vuln_result : VulnResult.
Variable cwe_result : CweResult.
Variable sev_result : SevResult.

(** The body of [if vuln_result['batch_vul_pred'][i] == 1:], up to the
    dictionary [vulnerability]. *)
Definition make_vulnerability (i : nat) (func : FunctionUnit) : M Finding :=
  line_scores <- getitem_or (batch_line_scores vuln_result) i [] ;;
  let vuln_line :=
    match line_scores with
    | x :: rest =>
        let max_score := py_max x rest in
        let vuln_line_idx := py_index max_score line_scores in
        start_line func + vuln_line_idx
    | [] => start_line func
    end in
  cwe_id <- getitem_or (cwe_id cwe_result) i (py "CWE-119") ;;
  cwe_prob <- getitem_or (cwe_id_prob cwe_result) i (1 # 2) ;;
  severity <- getitem_or (batch_sev_class sev_result) i (py "Medium") ;;
  severity_score <- getitem_or (batch_sev_score sev_result) i (5 # 1) ;;
  probs <- getkey "batch_vul_pred_prob" (batch_vul_pred_prob vuln_result) ;;
  prob <- getitem probs i ;;
  ret {| id := py "STATIC-" ++ str_of_nat (i + 1);
         type := py "static";
         severity := severity;
         message := py "Potential " ++ cwe_id ++ py " vulnerability detected";
         line := vuln_line;
         cweId := cwe_id;
         cweDescription := cwe_id ++ py " vulnerability with "
                             ++ format_2f cwe_prob ++ py " confidence";
         source := py "CodeGuard Static Analysis";
         probability := prob;
         severityScore := severity_score |}.

(** One iteration of [for i, func in enumerate(functions)]. *)
Definition fuse_step (i : nat) (func : FunctionUnit)
           (vulnerabilities : list Finding) : M (list Finding) :=
  preds <- getkey "batch_vul_pred" (batch_vul_pred vuln_result) ;;
  pred <- getitem preds i ;;
  if (pred =? 1)%Z then
    vulnerability <- make_vulnerability i func ;;
    ret (vulnerabilities ++ [vulnerability])
  else ret vulnerabilities.

(** The loop from index [i] on, [functions] being [functions[i:]]. *)
Fixpoint fuse_from (i : nat) (functions : list FunctionUnit)
         (vulnerabilities : list Finding) : M (list Finding) :=
  match functions with
  | [] => ret vulnerabilities
  | func :: functions' =>
      vulnerabilities <- fuse_step i func vulnerabilities ;;
      fuse_from (S i) functions' vulnerabilities
  end.

(** [vulnerabilities = []] followed by the whole loop. *)
Definition fuse (functions : list FunctionUnit) : M (list Finding) :=
  fuse_from 0 functions [].

End Fusion.

(** ** [analyze_file] *)

(** [[func['code'] for func in functions]] *)
Definition function_codes_of (functions : list FunctionUnit) : list pystr :=
  map code functions.

Section Analyze.
Context {T : CharTables}.

(** The collaborators: reading the file as UTF-8 text, and the three
    classifiers of [deploy], each of which returns its dictionary or
    raises. *)
Variable read_text : pystr -> M pystr.
Variable main : list pystr -> bool -> M VulnResult.
Variable main_cwe : list pystr -> bool -> M CweResult.
Variable main_sev : list pystr -> bool -> M SevResult.

(** The body of the [try] block. *)
Definition analyze_body (file_path : pystr) : M AnalysisResult :=
  code <- read_text file_path ;;
  let functions := extract_functions code in
  match functions with
  | [] => ret {| vulnerabilities := [];
                 errors := [py "No functions found in the code"] |}
  | _ :: _ =>
      let function_codes := function_codes_of functions in
      vuln_result <- main function_codes false ;;
      cwe_result <- main_cwe function_codes false ;;
      sev_result <- main_sev function_codes false ;;
      vulnerabilities <- fuse vuln_result cwe_result sev_result functions ;;
      ret {| vulnerabilities := vulnerabilities; errors := [] |}
  end.

(** [try: ... except Exception as e: ...] *)
Definition analyze_file (file_path : pystr) : AnalysisResult :=
  match analyze_body file_path with
  | inr result => result
  | inl e => {| vulnerabilities := [];
                errors := [py "Analysis failed: " ++ str_exn e] |}
  end.

End Analyze.

(** ** Exceptions that [except Exception] does not catch *)

(** The exceptions that are not instances of [Exception]. *)
Inductive base_exn : Type :=
| SystemExit (code : Z)               (* sys.exit(code), an integer code *)
| KeyboardInterrupt
| GeneratorExit
| OtherBaseException (msg : pystr).   (* any other one, [str(e) = msg] *)

(** Whatever a call can raise. *)
Inductive raised : Type :=
| IsException (e : exn)         (* an instance of [Exception] *)
| NotException (b : base_exn).  (* a [BaseException] that is not one *)

(** A computation that returns a value or raises anything at all. *)
Definition R (A : Type) : Type := (raised + A)%type.

Definition bindR {A B} (m : R A) (k : A -> R B) : R B :=
  match m with
  | inl x => inl x
  | inr a => k a
  end.

Notation "x <~ m ;; k" := (bindR m (fun x => k))
  (at level 61, m at next level, right associativity).

(** A computation that raises instances of [Exception] only. *)
Definition lift {A} (m : M A) : R A :=
  match m with
  | inl e => inl (IsException e)
  | inr a => inr a
  end.

(** One call [print(json.dumps(document))] or
    [print(json.dumps(document, indent=2))]: the dictionary that is
    serialised and the [indent] argument. *)
Record Printed := {
  document : AnalysisResult;
  indent : option nat
}.

(** What a call of [main_analyze] shows: the documents whose [print]
    returned, in order, and how the call ended: [inr tt] when it returned,
    [inl x] when [x] left it ([sys.exit(1)] raises [SystemExit(1)]). *)
Record Run := {
  stdout : list Printed;
  ending : R unit
}.

(** The script with collaborators that may raise anything: the file
    system, [print(json.dumps(..))] and the three classifiers.  Signals
    delivered between two calls are not part of the model. *)
Module Process.
Section WithCollaborators.
Context {T : CharTables}.

Variable path_exists : pystr -> R bool.   (* Path(file_path).exists() *)
Variable print_json : Printed -> R unit.  (* print(json.dumps(..)) *)
Variable read_text : pystr -> R pystr.
Variable main : list pystr -> bool -> R VulnResult.
Variable main_cwe : list pystr -> bool -> R CweResult.
Variable main_sev : list pystr -> bool -> R SevResult.

(** The body of the [try] block of [analyze_file]; the loop raises
    [KeyError] and [IndexError] only. *)
Definition analyze_body (file_path : pystr) : R AnalysisResult :=
  code <~ read_text file_path ;;
  let functions := extract_functions code in
  match functions with
  | [] => inr {| vulnerabilities := [];
                 errors := [py "No functions found in the code"] |}
  | _ :: _ =>
      let function_codes := function_codes_of functions in
      vuln_result <~ main function_codes false ;;
      cwe_result <~ main_cwe function_codes false ;;
      sev_result <~ main_sev function_codes false ;;
      vulnerabilities <~ lift (fuse vuln_result cwe_result sev_result functions) ;;
      inr {| vulnerabilities := vulnerabilities; errors := [] |}
  end.

(** [try: ... except Exception as e: ...]: an instance of [Exception]
    becomes a result, anything else leaves [analyze_file]. *)
Definition analyze_file (file_path : pystr) : (base_exn + AnalysisResult)%type :=
  match analyze_body file_path with
  | inr result => inr result
  | inl (IsException e) =>
      inr {| vulnerabilities := [];
             errors := [py "Analysis failed: " ++ str_exn e] |}
  | inl (NotException b) => inl b
  end.

(** [print(json.dumps(..))] followed by the rest of the run. *)
Definition print_then (d : Printed) (rest : Run) : Run :=
  match print_json d with
  | inl x => {| stdout := []; ending := inl x |}
  | inr _ => {| stdout := d :: stdout rest; ending := ending rest |}
  end.

(** [sys.exit(code)] *)
Definition sys_exit (code : Z) : Run :=
  {| stdout := []; ending := inl (NotException (SystemExit code)) |}.

(** [argv] is [sys.argv]; nothing in [main_analyze] catches an
    exception. *)
Definition main_analyze (argv : list pystr) : Run :=
  if negb (length argv =? 2) then
    print_then {| document :=
                    {| vulnerabilities := [];
                       errors := [py "Usage: python analyze.py <file_path>"] |};
                  indent := None |}
               (sys_exit 1)
  else
    let file_path := nth 1 argv [] in
    match path_exists file_path with
    | inl x => {| stdout := []; ending := inl x |}
    | inr false =>
        print_then {| document :=
                        {| vulnerabilities := [];
                           errors := [py "File not found: " ++ file_path] |};
                      indent := None |}
                   (sys_exit 1)
    | inr true =>
        match analyze_file file_path with
        | inl b => {| stdout := []; ending := inl (NotException b) |}
        | inr result =>
            print_then {| document := result; indent := Some 2 |}
                       {| stdout := []; ending := inr tt |}
        end
    end.

End WithCollaborators.
End Process.

(** ** Notions used in the statements *)

(** A source text given line by line. *)
Definition src (ls : list string) : pystr := join_nl (map py ls).

(** Number of lines of a text. *)
Definition line_count (s : pystr) : nat := length (split_nl s).

(** Net brace balance of a block of lines: every ['{'] counts [+1] and
    every ['}'] counts [-1]. *)
Definition balance (ls : list pystr) : Z :=
  fold_right (fun l b => (count LBRACE l - count RBRACE l + b)%Z) 0%Z ls.

(** The running balance over [rest] returns to zero for the first time
    after exactly [k] lines. *)
Definition first_zero (rest : list pystr) (k : nat) : Prop :=
  1 <= k <= length rest /\
  balance (firstn k rest) = 0%Z /\
  forall k', 1 <= k' < k -> balance (firstn k' rest) <> 0%Z.

(** Line [i] (0-based) of [lines] is a candidate opening whose body is
    complete after [k] lines. *)
Definition complete_candidate {T : CharTables} (lines : list pystr) (i k : nat) : Prop :=
  i < length lines /\
  re_search function_pattern (nth i lines []) = true /\
  first_zero (skipn i lines) k.

(** The unit of a candidate at line [i] that spans [k] lines. *)
Definition unit_of (lines : list pystr) (i k : nat) : FunctionUnit :=
  {| code := join_nl (firstn k (skipn i lines));
     start_line := i + 1;
     end_line := i + k |}.

(** The whole-file unit of the fallback. *)
Definition whole_file (code : pystr) : FunctionUnit :=
  {| code := code; start_line := 1; end_line := line_count code |}.

(** Two units have a line in common. *)
Definition shares_line (u1 u2 : FunctionUnit) : Prop :=
  exists n, (start_line u1 <= n <= end_line u1) /\ (start_line u2 <= n <= end_line u2).

(** What one iteration of [scan_lines] appends to [functions]. *)
Definition unit_at {T : CharTables} (i : nat) (rest : list pystr) : list FunctionUnit :=
  match rest with
  | [] => []
  | line :: _ =>
      if re_search function_pattern line then
        if (fst (find_body rest 0%Z []) =? 0)%Z then
          [ {| code := join_nl (snd (find_body rest 0%Z []));
               start_line := i + 1;
               end_line := i + length (snd (find_body rest 0%Z [])) |} ]
        else []
      else []
  end.

(** Index [i] is flagged: ['batch_vul_pred'] has an entry at [i], equal
    to [1]. *)
Definition vulnerable (v : VulnResult) (i : nat) : bool :=
  match batch_vul_pred v with
  | Some preds =>
      match nth_error preds i with
      | Some pred => (pred =? 1)%Z
      | None => false
      end
  | None => false
  end.

(** The flagged indices below [n], in order. *)
Definition vulnerable_indices (v : VulnResult) (n : nat) : list nat :=
  filter (vulnerable v) (seq 0 n).

(** ["STATIC-" + str(k)] *)
Definition static_id (k : nat) : pystr := py "STATIC-" ++ str_of_nat k.

(** A required key: present, with an entry at [i]. *)
Definition has_entry {A} (field : option (list A)) (i : nat) : Prop :=
  exists l, field = Some l /\ i < length l.

(** An optional key: absent, or present with an entry at [i]. *)
Definition absent_or_entry {A} (field : option (list A)) (i : nat) : Prop :=
  match field with
  | Some l => i < length l
  | None => True
  end.

(** [k] is the position of the maximum of [l], the lowest one on ties. *)
Definition first_max (l : list Q) (k : nat) : Prop :=
  exists m, nth_error l k = Some m /\
    (forall j y, nth_error l j = Some y -> (y <= m)%Q) /\
    (forall j y, j < k -> nth_error l j = Some y -> (y < m)%Q).

(** The line-score sequence the loop sees at index [i]. *)
Definition line_scores_at (v : VulnResult) (i : nat) : list Q :=
  match batch_line_scores v with
  | Some ls => nth i ls []
  | None => []
  end.

(** At index [j] of [functions] the loop appends the finding [f]. *)
Definition emitted_by (v : VulnResult) (c : CweResult) (s : SevResult)
           (functions : list FunctionUnit) (j : nat) (f : Finding) : Prop :=
  exists func, nth_error functions j = Some func /\
               make_vulnerability v c s j func = inr f.

(** Every entry the loop reads at index [i] is there: an entry of
    ['batch_vul_pred'] and, when the index is flagged, an entry of
    ['batch_vul_pred_prob'] and of every optional key that is present. *)
Definition entries_at (v : VulnResult) (c : CweResult) (s : SevResult)
           (i : nat) : Prop :=
  has_entry (batch_vul_pred v) i /\
  (vulnerable v i = true ->
     has_entry (batch_vul_pred_prob v) i /\
     absent_or_entry (batch_line_scores v) i /\
     absent_or_entry (cwe_id c) i /\
     absent_or_entry (cwe_id_prob c) i /\
     absent_or_entry (batch_sev_class s) i /\
     absent_or_entry (batch_sev_score s) i).

(** The bundles have every entry the loop reads for [n] units. *)
Definition well_shaped (v : VulnResult) (c : CweResult) (s : SevResult)
           (n : nat) : Prop :=
  forall i, i < n -> entries_at v c s i.

(** The result of the [except] branch. *)
Definition failed (e : exn) : AnalysisResult :=
  {| vulnerabilities := []; errors := [py "Analysis failed: " ++ str_exn e] |}.

(** ** Concrete inputs *)

(** A function whose body holds an [if] block with its brace on the same
    line. *)
Definition nested_source : pystr :=
  src ["void f() {"; "  if (x) {"; "  }"; "}"]%string.

Definition plain_source : pystr := src ["int x;"; "int y;"]%string.

Definition unit_5_6 : FunctionUnit :=
  {| code := src ["f() {"; "}"]%string; start_line := 5; end_line := 6 |}.

Definition unit_7_8 : FunctionUnit :=
  {| code := src ["g() {"; "}"]%string; start_line := 7; end_line := 8 |}.

Definition no_cwe : CweResult := {| cwe_id := None; cwe_id_prob := None |}.
Definition no_sev : SevResult := {| batch_sev_class := None; batch_sev_score := None |}.

(** Only the second of two units is flagged. *)
Definition second_flagged : VulnResult :=
  {| batch_vul_pred := Some [0; 1]%Z;
     batch_vul_pred_prob := Some [1 # 10; 9 # 10];
     batch_line_scores := None |}.

(** ['batch_vul_pred'] has an entry for the first unit only. *)
Definition short_pred : VulnResult :=
  {| batch_vul_pred := Some [0]%Z;
     batch_vul_pred_prob := Some [1 # 10; 9 # 10];
     batch_line_scores := None |}.

(** ['batch_line_scores'] is present but has no entry. *)
Definition no_score_entry : VulnResult :=
  {| batch_vul_pred := Some [1]%Z;
     batch_vul_pred_prob := Some [9 # 10];
     batch_line_scores := Some [] |}.

(** Flagged, with every other key absent. *)
Definition pred_only : VulnResult :=
  {| batch_vul_pred := Some [1]%Z;
     batch_vul_pred_prob := None;
     batch_line_scores := None |}.

(** Scenario C: two line scores, the second one higher. *)
Definition scenario_C : VulnResult :=
  {| batch_vul_pred := Some [1]%Z;
     batch_vul_pred_prob := Some [9 # 10];
     batch_line_scores := Some [[1 # 10; 8 # 10]] |}.

(** The finding of a unit at 0-based index [i], with every optional
    key absent. *)
Definition default_finding (i : nat) (line : nat) (probability : Q) : Finding :=
  {| id := static_id (i + 1);
     type := py "static";
     severity := py "Medium";
     message := py "Potential CWE-119 vulnerability detected";
     line := line;
     cweId := py "CWE-119";
     cweDescription := py "CWE-119 vulnerability with 0.50 confidence";
     source := py "CodeGuard Static Analysis";
     probability := probability;
     severityScore := 5 # 1 |}.

(** Collaborators for an empty file that no classifier flags. *)
Definition read_empty (file_path : pystr) : M pystr := ret [].
Definition main_cwe_none (function_codes : list pystr) (gpu : bool) : M CweResult :=
  ret no_cwe.
Definition main_sev_none (function_codes : list pystr) (gpu : bool) : M SevResult :=
  ret no_sev.
Definition main_down (function_codes : list pystr) (gpu : bool) : M VulnResult :=
  raise (OtherError (py "model not loaded")).

(** A candidate whose brace never closes. *)
Definition unbalanced_source : pystr :=
  src ["int f() {"; "  return 0;"]%string.

(** Collaborators for a file holding [nested_source] whose units are all
    flagged, each with two line scores. *)
Definition read_nested (file_path : pystr) : M pystr := ret nested_source.
Definition main_flag_all (function_codes : list pystr) (gpu : bool) : M VulnResult :=
  ret {| batch_vul_pred := Some (map (fun _ => 1%Z) function_codes);
         batch_vul_pred_prob := Some (map (fun _ => 9 # 10) function_codes);
         batch_line_scores := Some (map (fun _ => [1 # 10; 8 # 10]) function_codes) |}.

(** A vulnerability classifier whose dictionary lacks
    ['batch_vul_pred']. *)
Definition main_no_pred (function_codes : list pystr) (gpu : bool) : M VulnResult :=
  ret {| batch_vul_pred := None;
         batch_vul_pred_prob := Some (map (fun _ => 9 # 10) function_codes);
         batch_line_scores := None |}.

(** Collaborators that may raise anything: a file that cannot be read,
    a check of the path that fails or answers, a [print] that works, and a
    vulnerability classifier that calls [sys.exit(3)]. *)
Definition read_denied (file_path : pystr) : R pystr :=
  inl (IsException (OtherError (py "[Errno 13] Permission denied: 'a.c'"))).
Definition exists_always (file_path : pystr) : R bool := inr true.
Definition exists_never (file_path : pystr) : R bool := inr false.
Definition exists_too_long (file_path : pystr) : R bool :=
  inl (IsException (OtherError (py "[Errno 36] File name too long"))).
Definition print_ok (d : Printed) : R unit := inr tt.
Definition main_exits (function_codes : list pystr) (gpu : bool) : R VulnResult :=
  inl (NotException (SystemExit 3)).

(** * Properties *)

(** ** Splitting and joining lines *)

Lemma split_nl_not_nil (s : pystr) : split_nl s <> [].
Proof.
  destruct s as [|c s]; simpl; [discriminate|].
  destruct (N.eqb c NL); [discriminate|].
  destruct (split_nl s); discriminate.
Qed.

Lemma line_count_pos (s : pystr) : 1 <= line_count s.
Proof.
  unfold line_count. pose proof (split_nl_not_nil s) as H.
  destruct (split_nl s); [congruence | simpl; lia].
Qed.

Lemma split_nl_chars (s : pystr) :
  forall l c, In l (split_nl s) -> In c l -> In c s.
Proof.
  induction s as [|a s IH]; simpl; intros l c Hl Hc.
  - destruct Hl as [<-|[]]. exact Hc.
  - destruct (N.eqb a NL).
    + destruct Hl as [<-|Hl]; [destruct Hc | right; eauto].
    + destruct (split_nl s) as [|l0 ls] eqn:E.
      * destruct Hl as [<-|[]]. destruct Hc as [->|[]]. now left.
      * destruct Hl as [<-|Hl].
        -- destruct Hc as [->|Hc]; [now left | right].
           apply (IH l0 c); [now left | exact Hc].
        -- right. apply (IH l c); [now right | exact Hc].
Qed.

Lemma split_nl_no_nl (s : pystr) : Forall (fun l => ~ In NL l) (split_nl s).
Proof.
  induction s as [|a s IH]; simpl.
  - constructor; [intros [] | constructor].
  - destruct (N.eqb_spec a NL) as [->|Hne].
    + constructor; [intros [] | exact IH].
    + destruct (split_nl s) as [|l0 ls]; constructor.
      * intros [H|[]]. congruence.
      * constructor.
      * inversion IH; subst. intros [H|H]; [congruence | contradiction].
      * now inversion IH.
Qed.

Lemma split_nl_line (l : pystr) : ~ In NL l -> split_nl l = [l].
Proof.
  induction l as [|a l IH]; simpl; intros H; [reflexivity|].
  destruct (N.eqb_spec a NL) as [->|Hne]; [exfalso; apply H; now left|].
  rewrite IH; [reflexivity | intros Hin; apply H; now right].
Qed.

Lemma split_nl_app (l s : pystr) :
  ~ In NL l -> split_nl (l ++ NL :: s) = l :: split_nl s.
Proof.
  induction l as [|a l IH]; simpl; intros H; [reflexivity|].
  destruct (N.eqb_spec a NL) as [->|Hne]; [exfalso; apply H; now left|].
  rewrite IH; [reflexivity | intros Hin; apply H; now right].
Qed.

Lemma split_join (ls : list pystr) :
  ls <> [] -> Forall (fun l => ~ In NL l) ls -> split_nl (join_nl ls) = ls.
Proof.
  induction ls as [|l ls IH]; intros Hne Hall; [congruence|].
  inversion Hall as [|? ? Hl Hls]; subst.
  destruct ls as [|l2 ls'].
  - simpl. now apply split_nl_line.
  - change (join_nl (l :: l2 :: ls')) with (l ++ NL :: join_nl (l2 :: ls')).
    rewrite split_nl_app by exact Hl.
    rewrite IH; [reflexivity | discriminate | exact Hls].
Qed.

Lemma join_split (s : pystr) : join_nl (split_nl s) = s.
Proof.
  induction s as [|a s IH]; [reflexivity|].
  cbn [split_nl]. pose proof (split_nl_not_nil s) as Hn.
  destruct (split_nl s) as [|l ls] eqn:E; [congruence|].
  destruct (N.eqb_spec a NL) as [->|Hne].
  - change (join_nl ([] :: l :: ls)) with ([] ++ NL :: join_nl (l :: ls)).
    now rewrite IH.
  - rewrite <- IH. destruct ls; reflexivity.
Qed.

(** ** The pattern needs an opening brace *)

Lemma nullable_not_mandatory (c : char) (r : regex) :
  nullable r = true -> mandatory c r = false.
Proof.
  induction r; simpl; intros H; try discriminate; try reflexivity.
  - apply andb_true_iff in H as [H1 H2]. now rewrite IHr1, IHr2.
  - apply orb_true_iff in H as [H|H]; [rewrite IHr1 by exact H | rewrite IHr2 by exact H].
    + reflexivity.
    + apply andb_false_r.
Qed.

Section MatchingFacts.
Context {T : CharTables}.

Lemma mandatory_deriv (c x : char) (r : regex) :
  x <> c -> mandatory c r = true -> mandatory c (deriv x r) = true.
Proof.
  intros Hx. induction r; simpl; intros H; try discriminate; try reflexivity.
  - apply N.eqb_eq in H. subst c0.
    destruct (N.eqb_spec x c); [contradiction | reflexivity].
  - destruct (nullable r1) eqn:Hn.
    + rewrite (nullable_not_mandatory c _ Hn) in H. simpl in H.
      simpl. rewrite H, IHr2 by exact H. now rewrite orb_true_r.
    + simpl. apply orb_true_iff in H as [H|H].
      * now rewrite IHr1.
      * rewrite H. apply orb_true_r.
  - apply andb_true_iff in H as [H1 H2]. now rewrite IHr1, IHr2.
Qed.

Lemma re_match_mandatory (c : char) (s : pystr) :
  forall r, mandatory c r = true -> re_match r s = true -> In c s.
Proof.
  induction s as [|x s IH]; simpl; intros r Hm H.
  - rewrite orb_false_r in H. now rewrite (nullable_not_mandatory c _ H) in Hm.
  - apply orb_true_iff in H as [H|H].
    + now rewrite (nullable_not_mandatory c _ H) in Hm.
    + destruct (N.eq_dec x c) as [->|Hne]; [now left | right].
      apply (IH (deriv x r)); [now apply mandatory_deriv | exact H].
Qed.

Lemma re_search_mandatory (c : char) (r : regex) (s : pystr) :
  mandatory c r = true -> re_search r s = true -> In c s.
Proof.
  intros Hm. induction s as [|x s IH]; simpl; intros H.
  - rewrite orb_false_r in H. rewrite orb_false_r in H.
    now rewrite (nullable_not_mandatory c _ H) in Hm.
  - apply orb_true_iff in H as [H|H].
    + apply (re_match_mandatory c (x :: s) r Hm). exact H.
    + right. now apply IH.
Qed.

Lemma candidate_has_brace (l : pystr) :
  re_search function_pattern l = true -> In LBRACE l.
Proof. apply re_search_mandatory. reflexivity. Qed.

End MatchingFacts.

(** ** The inner loop and the brace balance *)

Lemma balance_cons (l : pystr) (ls : list pystr) :
  balance (l :: ls) = (count LBRACE l - count RBRACE l + balance ls)%Z.
Proof. reflexivity. Qed.

Lemma find_body_spec (rest : list pystr) :
  forall (b : Z) (acc : list pystr),
    (exists k, 1 <= k <= length rest /\
               find_body rest b acc = (0%Z, acc ++ firstn k rest) /\
               (b + balance (firstn k rest) = 0)%Z /\
               forall k', 1 <= k' < k -> (b + balance (firstn k' rest) <> 0)%Z)
    \/ (find_body rest b acc = ((b + balance rest)%Z, acc ++ rest) /\
        forall k', 1 <= k' <= length rest -> (b + balance (firstn k' rest) <> 0)%Z).
Proof.
  induction rest as [|l rest IH]; intros b acc.
  - right. simpl. rewrite Z.add_0_r, app_nil_r. split; [reflexivity | intros; lia].
  - cbn [find_body].
    set (d := (count LBRACE l - count RBRACE l)%Z).
    assert (Hone : forall ls, balance (firstn 1 (l :: ls)) = d).
    { intros ls. cbn. fold d. lia. }
    destruct (Z.eqb_spec (b + d) 0) as [Hz|Hnz].
    + left. exists 1. rewrite Hone. cbn [firstn length].
      split; [lia|]. split; [now rewrite Hz|]. split; [exact Hz | intros; lia].
    + destruct (IH (b + d)%Z (acc ++ [l])) as [(k & Hk & Hf & Hb & Hmin) | (Hf & Hmin)].
      * left. exists (S k). cbn [firstn length]. rewrite balance_cons. fold d.
        split; [lia|]. split; [|split; [lia|]].
        -- rewrite Hf, <- app_assoc. reflexivity.
        -- intros [|[|k'']] Hk'; [lia | rewrite Hone; exact Hnz |].
           cbn [firstn]. rewrite balance_cons. fold d.
           specialize (Hmin (S k'')). cbn [firstn] in Hmin. lia.
      * right. rewrite balance_cons. fold d. split.
        -- rewrite Hf, <- app_assoc, Z.add_assoc. reflexivity.
        -- intros [|[|k'']] Hk'; [lia | rewrite Hone; exact Hnz |].
           cbn [firstn]. rewrite balance_cons. fold d.
           cbn [length] in Hk'. specialize (Hmin (S k'')). cbn [firstn] in Hmin. lia.
Qed.

Lemma first_zero_unique (rest : list pystr) (k1 k2 : nat) :
  first_zero rest k1 -> first_zero rest k2 -> k1 = k2.
Proof.
  intros (H1 & Hz1 & Hm1) (H2 & Hz2 & Hm2).
  destruct (Nat.lt_trichotomy k1 k2) as [Hlt|[Heq|Hgt]]; [|exact Heq|].
  - exfalso. apply (Hm2 k1); [lia | exact Hz1].
  - exfalso. apply (Hm1 k2); [lia | exact Hz2].
Qed.

Lemma find_body_complete (rest : list pystr) (k : nat) :
  first_zero rest k -> find_body rest 0%Z [] = (0%Z, firstn k rest).
Proof.
  intros (Hk & Hz & Hmin).
  destruct (find_body_spec rest 0%Z []) as [(k0 & Hk0 & Hf & Hb & Hm0) | (Hf & Hm0)].
  - assert (k0 = k) as ->.
    { apply (first_zero_unique (rest := rest)).
      - split; [lia|]. split; [lia|].
        intros k' Hk'. specialize (Hm0 k' Hk'). lia.
      - split; [lia|]. split; [exact Hz | exact Hmin]. }
    exact Hf.
  - exfalso. apply (Hm0 k); lia.
Qed.

Lemma find_body_sound (rest : list pystr) :
  rest <> [] -> fst (find_body rest 0%Z []) = 0%Z ->
  exists k, first_zero rest k /\ find_body rest 0%Z [] = (0%Z, firstn k rest).
Proof.
  intros Hne H0.
  destruct (find_body_spec rest 0%Z []) as [(k & Hk & Hf & Hb & Hm) | (Hf & Hm)].
  - exists k. split; [|exact Hf]. split; [lia|]. split; [lia|].
    intros k' Hk'. specialize (Hm k' Hk'). lia.
  - exfalso. rewrite Hf in H0. cbn [fst] in H0.
    apply (Hm (length rest)).
    + destruct rest; [congruence | cbn; lia].
    + now rewrite firstn_all.
Qed.

(** ** The outer loop *)

Section ScanFacts.
Context {T : CharTables}.

Lemma scan_lines_step (i : nat) (line : pystr) (rest : list pystr)
      (acc : list FunctionUnit) :
  scan_lines i (line :: rest) acc =
  scan_lines (S i) rest (acc ++ unit_at i (line :: rest)).
Proof.
  cbn [scan_lines unit_at].
  destruct (re_search function_pattern line); [|now rewrite app_nil_r].
  destruct (find_body (line :: rest) 0%Z []) as [bc fl]. cbn [fst snd].
  destruct (bc =? 0)%Z; [reflexivity | now rewrite app_nil_r].
Qed.

Lemma scan_lines_acc (rest : list pystr) :
  forall i acc, scan_lines i rest acc = acc ++ scan_lines i rest [].
Proof.
  induction rest as [|line rest IH]; intros i acc.
  - simpl. now rewrite app_nil_r.
  - rewrite !scan_lines_step.
    rewrite (IH (S i) (acc ++ _)), (IH (S i) ([] ++ _)).
    now rewrite app_assoc.
Qed.

Lemma scan_lines_cons (i : nat) (line : pystr) (rest : list pystr) :
  scan_lines i (line :: rest) [] =
  unit_at i (line :: rest) ++ scan_lines (S i) rest [].
Proof. rewrite scan_lines_step. apply scan_lines_acc. Qed.

Lemma unit_at_iff (i : nat) (rest : list pystr) (u : FunctionUnit) :
  In u (unit_at i rest) <->
  exists k, re_search function_pattern (nth 0 rest []) = true /\
            first_zero rest k /\
            u = {| code := join_nl (firstn k rest);
                   start_line := i + 1; end_line := i + k |}.
Proof.
  destruct rest as [|line rest'].
  - simpl. split; [intros [] | intros (k & _ & (Hk & _) & _); simpl in Hk; lia].
  - cbn [unit_at nth].
    destruct (re_search function_pattern line).
    2:{ split; [intros [] | intros (k & Hd & _); discriminate]. }
    destruct (Z.eqb_spec (fst (find_body (line :: rest') 0%Z [])) 0) as [Hz|Hnz].
    + destruct (find_body_sound (rest := line :: rest')) as (k & Hfz & Hf);
        [discriminate | exact Hz |].
      rewrite Hf. cbn [fst snd]. split.
      * intros [<-|[]]. exists k.
        split; [reflexivity|]. split; [exact Hfz|].
        f_equal. destruct Hfz as (Hk & _). rewrite length_firstn. lia.
      * intros (k' & _ & Hfz' & ->). left.
        rewrite (first_zero_unique Hfz' Hfz).
        f_equal. destruct Hfz as (Hk & _). rewrite length_firstn. lia.
    + split; [intros [] | intros (k & _ & Hfz & _)].
      rewrite (find_body_complete Hfz) in Hnz. now cbn in Hnz.
Qed.

Lemma scan_lines_iff (rest : list pystr) :
  forall i u,
    In u (scan_lines i rest []) <->
    exists p k, p < length rest /\
                re_search function_pattern (nth p rest []) = true /\
                first_zero (skipn p rest) k /\
                u = {| code := join_nl (firstn k (skipn p rest));
                       start_line := i + p + 1; end_line := i + p + k |}.
Proof.
  induction rest as [|line rest IH]; intros i u.
  - simpl. split; [intros [] | intros (p & k & Hp & _); lia].
  - rewrite scan_lines_cons, in_app_iff, unit_at_iff, IH. split.
    + intros [(k & Hm & Hfz & ->) | (p & k & Hp & Hm & Hfz & ->)].
      * exists 0, k. cbn [skipn length]. rewrite !Nat.add_0_r.
        split; [lia|]. split; [exact Hm|]. split; [exact Hfz | reflexivity].
      * exists (S p), k. cbn [skipn length nth].
        replace (i + S p) with (S i + p) by lia.
        split; [lia|]. split; [exact Hm|]. split; [exact Hfz | reflexivity].
    + intros ([|p] & k & Hp & Hm & Hfz & ->).
      * left. exists k. cbn [skipn] in *. rewrite !Nat.add_0_r.
        split; [exact Hm|]. split; [exact Hfz | reflexivity].
      * right. exists p, k. cbn [skipn length nth] in *.
        replace (i + S p) with (S i + p) by lia.
        split; [lia|]. split; [exact Hm|]. split; [exact Hfz | reflexivity].
Qed.

Lemma unit_at_start (i : nat) (rest : list pystr) (u : FunctionUnit) :
  In u (unit_at i rest) -> start_line u = i + 1.
Proof. rewrite unit_at_iff. now intros (k & _ & _ & ->). Qed.

Lemma scan_lines_sorted (rest : list pystr) :
  forall i, StronglySorted lt (map start_line (scan_lines i rest [])) /\
            Forall (fun n => i < n) (map start_line (scan_lines i rest [])).
Proof.
  induction rest as [|line rest IH]; intros i.
  - simpl. split; constructor.
  - rewrite scan_lines_cons, map_app.
    destruct (IH (S i)) as [Hs Hb].
    assert (Hb' : Forall (fun n => i < n) (map start_line (scan_lines (S i) rest []))).
    { revert Hb. apply Forall_impl. intros; lia. }
    pose proof (@unit_at_start i (line :: rest)) as Hu.
    destruct (unit_at i (line :: rest)) as [|u [|u' us]] eqn:E.
    + split; assumption.
    + cbn [map app]. specialize (Hu u (or_introl eq_refl)). split.
      * constructor; [exact Hs|]. revert Hb. apply Forall_impl. intros; lia.
      * constructor; [lia | exact Hb'].
    + exfalso. revert E. cbn [unit_at].
      destruct (re_search function_pattern line); [|discriminate].
      destruct (_ =? _)%Z; discriminate.
Qed.

End ScanFacts.

(** ** The extractor *)

Lemma In_firstn {A} (n : nat) (l : list A) (x : A) : In x (firstn n l) -> In x l.
Proof.
  intros H. rewrite <- (firstn_skipn n l). apply in_or_app. now left.
Qed.

Lemma In_skipn {A} (n : nat) (l : list A) (x : A) : In x (skipn n l) -> In x l.
Proof.
  intros H. rewrite <- (firstn_skipn n l). apply in_or_app. now right.
Qed.

Lemma increasing_NoDup (l : list nat) : StronglySorted lt l -> NoDup l.
Proof.
  induction 1 as [|a l Hs IH Hall]; constructor; [|exact IH].
  intros Hin. apply (proj1 (Forall_forall _ _) Hall) in Hin. lia.
Qed.

Section ExtractFacts.
Context {T : CharTables}.

Lemma extract_functions_cases (text : pystr) :
  (scan_lines 0 (split_nl text) [] = [] /\
   extract_functions text = [whole_file text])
  \/ (scan_lines 0 (split_nl text) [] <> [] /\
      extract_functions text = scan_lines 0 (split_nl text) []).
Proof.
  unfold extract_functions.
  destruct (scan_lines 0 (split_nl text) []) as [|u us].
  - left. split; reflexivity.
  - right. split; [discriminate | reflexivity].
Qed.

Lemma extract_functions_not_nil (text : pystr) : extract_functions text <> [].
Proof.
  destruct (extract_functions_cases text) as [[_ ->] | [Hne ->]];
    [discriminate | exact Hne].
Qed.

Lemma scanned_unit (text : pystr) (u : FunctionUnit) :
  In u (scan_lines 0 (split_nl text) []) <->
  exists i k, complete_candidate (split_nl text) i k /\
              u = unit_of (split_nl text) i k.
Proof.
  rewrite scan_lines_iff. unfold complete_candidate, unit_of. cbn [Nat.add].
  split; intros (i & k & H); exists i, k; tauto.
Qed.

Lemma extract_start_sorted (text : pystr) :
  StronglySorted lt (map start_line (extract_functions text)).
Proof.
  destruct (extract_functions_cases text) as [[_ ->] | [_ ->]].
  - cbn. repeat constructor.
  - apply scan_lines_sorted.
Qed.

Lemma unit_of_shape (lines : list pystr) (i k : nat) :
  Forall (fun l => ~ In NL l) lines ->
  i < length lines -> 1 <= k <= length (skipn i lines) ->
  split_nl (code (unit_of lines i k)) = firstn k (skipn i lines) /\
  length (firstn k (skipn i lines)) = k /\
  i + k <= length lines.
Proof.
  intros Hall Hi Hk. pose proof Hk as Hk'. rewrite length_skipn in Hk'.
  assert (Hlen : length (firstn k (skipn i lines)) = k).
  { rewrite length_firstn. lia. }
  split; [|split; [exact Hlen | lia]].
  cbn [unit_of code]. apply split_join.
  - intros E. rewrite E in Hlen. cbn in Hlen. lia.
  - apply Forall_forall. intros l Hl.
    apply (proj1 (Forall_forall _ lines) Hall).
    apply (In_skipn i), (In_firstn k). exact Hl.
Qed.

End ExtractFacts.

(** C6 - extraction is total and well formed: for every input text
    [extract_functions] returns a non-empty list, and every returned
    unit has [1 <= start_line <= end_line <= line count of the file] and a
    text of exactly [end_line - start_line + 1] lines. *)
Theorem extract_functions_total {T : CharTables} (text : pystr) :
  extract_functions text <> [] /\
  forall u, In u (extract_functions text) ->
    1 <= start_line u /\
    start_line u <= end_line u /\
    end_line u <= line_count text /\
    line_count (code u) = end_line u - start_line u + 1.
Proof.
  destruct (extract_functions_cases text) as [[_ ->] | [Hne ->]].
  - split; [discriminate|]. intros u [<-|[]]. cbn [whole_file start_line end_line code].
    pose proof (line_count_pos text). lia.
  - split; [exact Hne|]. intros u Hu.
    apply scanned_unit in Hu as (i & k & (Hi & _ & Hk & _) & ->).
    destruct (unit_of_shape (split_nl_no_nl text) Hi Hk) as (Hs & Hl & Hb).
    unfold line_count. rewrite Hs, Hl. cbn [unit_of start_line end_line]. lia.
Qed.

(** C7 - fallback: a text with no brace character yields exactly one
    unit, which spans the whole file: [start_line = 1], [end_line] the
    number of lines, and the text itself as its code. *)
Theorem extract_functions_no_braces {T : CharTables} (text : pystr) :
  count LBRACE text = 0%Z -> count RBRACE text = 0%Z ->
  extract_functions text =
  [ {| code := text; start_line := 1; end_line := length (split_nl text) |} ].
Proof.
  intros HL _.
  assert (Hno : ~ In LBRACE text).
  { apply (count_occ_not_In N.eq_dec). unfold count in HL. lia. }
  destruct (extract_functions_cases text) as [[_ ->] | [Hne _]]; [reflexivity|].
  exfalso. destruct (scan_lines 0 (split_nl text) []) as [|u us] eqn:E; [congruence|].
  assert (Hu : In u (scan_lines 0 (split_nl text) [])) by (rewrite E; now left).
  apply scanned_unit in Hu as (i & k & (Hi & Hm & _) & _).
  apply Hno. apply (split_nl_chars text (nth i (split_nl text) [])).
  - now apply nth_In.
  - now apply candidate_has_brace.
Qed.

Lemma extract_functions_no_braces_witness :
  count LBRACE plain_source = 0%Z /\ count RBRACE plain_source = 0%Z /\
  extract_functions (T := ascii_tables) plain_source =
  [ {| code := plain_source; start_line := 1; end_line := 2 |} ].
Proof.
  split; [reflexivity|]. split; [reflexivity|].
  apply (extract_functions_no_braces (T := ascii_tables) plain_source); reflexivity.
Defined.

(** C10 - for every input text the units returned by
    [extract_functions] have strictly increasing start lines: they come out
    in the file order of their candidate lines, whether or not their spans
    overlap. *)
Theorem extract_functions_start_lines_increasing {T : CharTables} (text : pystr) :
  StronglySorted lt (map start_line (extract_functions text)).
Proof. apply extract_start_sorted. Qed.

(** C1, as stated, fails: in [nested_source] the [if] line lies inside the
    span of the unit of [f], is detected again, and the two emitted units
    share lines 2 and 3. *)
Lemma nested_candidate_is_extracted_again :
  ~ (forall u1 u2,
        In u1 (extract_functions (T := ascii_tables) nested_source) ->
        In u2 (extract_functions (T := ascii_tables) nested_source) ->
        u1 <> u2 -> ~ shares_line u1 u2).
Proof.
  intros H.
  apply (H {| code := src ["void f() {"; "  if (x) {"; "  }"; "}"]%string;
              start_line := 1; end_line := 4 |}
           {| code := src ["  if (x) {"; "  }"]%string;
              start_line := 2; end_line := 3 |}).
  - vm_compute. left. reflexivity.
  - vm_compute. right. left. reflexivity.
  - discriminate.
  - exists 2. cbn. lia.
Qed.

(** C1, amended - the scan resumes at the line after each candidate
    line, not after the end of the emitted unit: every line that matches the
    pattern and whose running brace balance returns to zero yields its own
    unit, also when it lies inside the span of an earlier unit; nothing else
    is emitted but the whole-file fallback; and no two emitted units start
    on the same line. *)
Theorem extract_functions_candidates {T : CharTables} (text : pystr) :
  (forall i k, complete_candidate (split_nl text) i k ->
               In (unit_of (split_nl text) i k) (extract_functions text)) /\
  (forall u, In u (extract_functions text) ->
             (exists i k, complete_candidate (split_nl text) i k /\
                          u = unit_of (split_nl text) i k)
             \/ u = whole_file text) /\
  NoDup (map start_line (extract_functions text)).
Proof.
  split; [|split].
  - intros i k Hc.
    assert (Hin : In (unit_of (split_nl text) i k) (scan_lines 0 (split_nl text) [])).
    { apply scanned_unit. now exists i, k. }
    destruct (extract_functions_cases text) as [[E _] | [_ ->]]; [|exact Hin].
    rewrite E in Hin. destruct Hin.
  - intros u Hu.
    destruct (extract_functions_cases text) as [[_ E] | [_ E]]; rewrite E in Hu.
    + right. destruct Hu as [<-|[]]. reflexivity.
    + left. now apply scanned_unit.
  - apply increasing_NoDup, extract_start_sorted.
Qed.

Lemma extract_functions_candidates_witness :
  complete_candidate (T := ascii_tables) (split_nl nested_source) 1 2 /\
  In {| code := src ["  if (x) {"; "  }"]%string; start_line := 2; end_line := 3 |}
     (extract_functions (T := ascii_tables) nested_source).
Proof.
  assert (Hc : complete_candidate (T := ascii_tables) (split_nl nested_source) 1 2).
  { split; [vm_compute; lia|]. split; [vm_compute; reflexivity|].
    split; [vm_compute; lia|]. split; [vm_compute; reflexivity|].
    intros k' Hk'. assert (k' = 1) as -> by lia. vm_compute. discriminate. }
  split; [exact Hc|].
  exact (proj1 (extract_functions_candidates (T := ascii_tables) nested_source) 1 2 Hc).
Defined.

(** ** The error monad and the lookups *)

Lemma bind_inr {A B} (m : M A) (k : A -> M B) (b : B) :
  bind m k = inr b <-> exists a, m = inr a /\ k a = inr b.
Proof.
  destruct m as [e|a]; cbn; split.
  - discriminate.
  - intros (a & Ha & _). discriminate.
  - intros H. now exists a.
  - intros (a' & [= <-] & H). exact H.
Qed.

Lemma getitem_inr {A} (l : list A) (i : nat) (a : A) :
  getitem l i = inr a <-> nth_error l i = Some a.
Proof.
  unfold getitem, ret, raise. destruct (nth_error l i); split; congruence.
Qed.

Lemma getitem_ok {A} (l : list A) (i : nat) :
  i < length l <-> exists a, getitem l i = inr a.
Proof.
  unfold getitem, ret, raise. split.
  - intros H. destruct (nth_error l i) eqn:E; [eauto|].
    apply nth_error_None in E. lia.
  - intros (a & H). apply nth_error_Some. destruct (nth_error l i); discriminate.
Qed.

Lemma getkey_inr {A} (key : string) (field : option A) (a : A) :
  getkey key field = inr a <-> field = Some a.
Proof. unfold getkey, ret, raise. destruct field; split; congruence. Qed.

Lemma getitem_or_ok {A} (field : option (list A)) (i : nat) (d : A) :
  absent_or_entry field i <-> exists a, getitem_or field i d = inr a.
Proof.
  destruct field as [l|]; cbn [absent_or_entry getitem_or].
  - apply getitem_ok.
  - split; [intros _; now exists d | trivial].
Qed.

Lemma getitem_or_absent {A} (i : nat) (d a : A) :
  getitem_or None i d = inr a -> a = d.
Proof. unfold getitem_or, ret. congruence. Qed.

Lemma required_ok {A} (key : string) (field : option (list A)) (i : nat) :
  has_entry field i <->
  exists a, (l <- getkey key field ;; getitem l i) = inr a.
Proof.
  unfold has_entry. split.
  - intros (l & -> & Hi). cbn. now apply getitem_ok.
  - intros (a & H). apply bind_inr in H as (l & Hk & Hg).
    apply getkey_inr in Hk. exists l. split; [exact Hk|].
    apply getitem_ok. now exists a.
Qed.

(** ** Identifiers *)

Lemma py_inj (s1 s2 : string) : py s1 = py s2 -> s1 = s2.
Proof.
  unfold py. intros H.
  rewrite <- (string_of_list_ascii_of_string s1), <- (string_of_list_ascii_of_string s2).
  f_equal. revert H.
  generalize (list_ascii_of_string s1) (list_ascii_of_string s2).
  induction l as [|a l IH]; intros [|b l'] H; cbn in H; try discriminate; [reflexivity|].
  injection H as Hab Hl. f_equal; [|now apply IH].
  rewrite <- (ascii_N_embedding a), <- (ascii_N_embedding b). now f_equal.
Qed.

Lemma str_of_nat_inj (a b : nat) : str_of_nat a = str_of_nat b -> a = b.
Proof.
  unfold str_of_nat. intros H. apply py_inj in H.
  assert (E : Nat.to_uint a = Nat.to_uint b).
  { pose proof (NilEmpty.usu (Nat.to_uint a)) as Ha.
    pose proof (NilEmpty.usu (Nat.to_uint b)) as Hb.
    rewrite H in Ha. rewrite Ha in Hb. now injection Hb. }
  rewrite <- (Unsigned.of_to a), <- (Unsigned.of_to b). now f_equal.
Qed.

Lemma static_id_inj (a b : nat) : static_id a = static_id b -> a = b.
Proof.
  unfold static_id. intros H. apply app_inv_head in H. now apply str_of_nat_inj.
Qed.

(** ** Maximum and index *)

Lemma Qgtb_true (x y : Q) : Qgtb x y = true <-> (y < x)%Q.
Proof.
  unfold Qgtb. rewrite negb_true_iff. split.
  - intros H. apply Qnot_le_lt. intros Hle. apply Qle_bool_iff in Hle. congruence.
  - intros H. destruct (Qle_bool x y) eqn:E; [|reflexivity].
    apply Qle_bool_iff in E. exfalso. now apply (Qlt_not_le y x).
Qed.

Lemma Qgtb_false (x y : Q) : Qgtb x y = false <-> (x <= y)%Q.
Proof.
  unfold Qgtb. rewrite negb_false_iff. apply Qle_bool_iff.
Qed.

Lemma py_max_spec (rest : list Q) :
  forall x, In (py_max x rest) (x :: rest) /\
            forall y, In y (x :: rest) -> (y <= py_max x rest)%Q.
Proof.
  unfold py_max. induction rest as [|z rest IH]; intros x; cbn [fold_left].
  - split; [now left|]. intros y [<-|[]]. apply Qle_refl.
  - destruct (IH (if Qgtb z x then z else x)) as [Hin Hle]. split.
    + destruct Hin as [Hin|Hin]; [|now right; right].
      rewrite <- Hin. destruct (Qgtb z x); [right; now left | now left].
    + intros y Hy.
      assert (Hstep : (y <= (if Qgtb z x then z else x))%Q \/ In y rest).
      { destruct Hy as [Hy|[Hy|Hy]]; [| |now right]; left; subst y.
        - destruct (Qgtb z x) eqn:E; [|apply Qle_refl].
          apply Qgtb_true in E. now apply Qlt_le_weak.
        - destruct (Qgtb z x) eqn:E; [apply Qle_refl|].
          now apply Qgtb_false in E. }
      destruct Hstep as [Hs|Hs].
      * eapply Qle_trans; [exact Hs|]. apply Hle. now left.
      * apply Hle. now right.
Qed.

Lemma py_index_spec (m : Q) (l : list Q) :
  In m l ->
  exists y, nth_error l (py_index m l) = Some y /\ (y == m)%Q /\
            forall j z, j < py_index m l -> nth_error l j = Some z -> ~ (z == m)%Q.
Proof.
  induction l as [|a l IH]; intros Hin; [destruct Hin|].
  cbn [py_index]. destruct (Qeq_bool a m) eqn:E.
  - exists a. split; [reflexivity|]. split; [now apply Qeq_bool_iff|]. intros; lia.
  - assert (Hne : ~ (a == m)%Q).
    { intros H. apply Qeq_bool_iff in H. congruence. }
    destruct Hin as [->|Hin]; [exfalso; apply Hne; reflexivity|].
    destruct (IH Hin) as (y & Hn & Hy & Hmin). exists y.
    split; [exact Hn|]. split; [exact Hy|].
    intros [|j] z Hj Hz; cbn in Hz.
    + injection Hz as <-. exact Hne.
    + apply (Hmin j z); [lia | exact Hz].
Qed.

Lemma py_index_first_max (x : Q) (rest : list Q) :
  first_max (x :: rest) (py_index (py_max x rest) (x :: rest)).
Proof.
  destruct (py_max_spec rest x) as [Hin Hle].
  destruct (py_index_spec _ _ Hin) as (y & Hn & Hy & Hmin).
  exists y. split; [exact Hn|]. split.
  - intros j z Hz. rewrite Hy. apply Hle. eapply nth_error_In; exact Hz.
  - intros j z Hj Hz. rewrite Hy.
    assert (H : (z <= py_max x rest)%Q) by (apply Hle; eapply nth_error_In; exact Hz).
    apply Qle_lteq in H. destruct H as [H|H]; [exact H|]. exfalso. exact (Hmin j z Hj Hz H).
Qed.

Lemma first_max_lt (l : list Q) (k : nat) : first_max l k -> k < length l.
Proof.
  intros (m & Hn & _). apply nth_error_Some. congruence.
Qed.

(** ** The fusion loop *)

Lemma Forall2_nth_error_r {A B} (R : A -> B -> Prop) (l1 : list A) (l2 : list B) :
  Forall2 R l1 l2 ->
  forall k y, nth_error l2 k = Some y -> exists x, nth_error l1 k = Some x /\ R x y.
Proof.
  induction 1 as [|x y l1 l2 Hxy _ IH]; intros [|k] z Hz; cbn in *; try discriminate.
  - injection Hz as <-. now exists x.
  - now apply IH.
Qed.

Lemma Forall2_nth_error_l {A B} (R : A -> B -> Prop) (l1 : list A) (l2 : list B) :
  Forall2 R l1 l2 ->
  forall k x, nth_error l1 k = Some x -> exists y, nth_error l2 k = Some y /\ R x y.
Proof.
  induction 1 as [|x y l1 l2 Hxy _ IH]; intros [|k] z Hz; cbn in *; try discriminate.
  - injection Hz as <-. now exists y.
  - now apply IH.
Qed.

Lemma NoDup_nth_error_inj {A} (l : list A) (k1 k2 : nat) (x : A) :
  NoDup l -> nth_error l k1 = Some x -> nth_error l k2 = Some x -> k1 = k2.
Proof.
  intros Hnd H1 H2. apply (proj1 (NoDup_nth_error l) Hnd).
  - apply nth_error_Some. congruence.
  - congruence.
Qed.

Section FusionFacts.
Variable v : VulnResult.
Variable c : CweResult.
Variable s : SevResult.

Lemma vulnerable_true (i : nat) :
  vulnerable v i = true <->
  exists preds, batch_vul_pred v = Some preds /\ nth_error preds i = Some 1%Z.
Proof.
  unfold vulnerable. destruct (batch_vul_pred v) as [preds|].
  - destruct (nth_error preds i) as [p|] eqn:E.
    + split.
      * intros H. apply Z.eqb_eq in H. subst p. now exists preds.
      * intros (preds' & [= <-] & H). rewrite E in H. injection H as ->. reflexivity.
    + split; [discriminate | intros (preds' & [= <-] & H); congruence].
  - split; [discriminate | intros (preds' & H & _); discriminate].
Qed.

Lemma make_vulnerability_inv (i : nat) (func : FunctionUnit) (f : Finding) :
  make_vulnerability v c s i func = inr f ->
  exists line_scores cid cprob sev sscore probs prob,
    getitem_or (batch_line_scores v) i [] = inr line_scores /\
    getitem_or (cwe_id c) i (py "CWE-119") = inr cid /\
    getitem_or (cwe_id_prob c) i (1 # 2) = inr cprob /\
    getitem_or (batch_sev_class s) i (py "Medium") = inr sev /\
    getitem_or (batch_sev_score s) i (5 # 1) = inr sscore /\
    batch_vul_pred_prob v = Some probs /\ nth_error probs i = Some prob /\
    f = {| id := static_id (i + 1);
           type := py "static";
           severity := sev;
           message := py "Potential " ++ cid ++ py " vulnerability detected";
           line := match line_scores with
                   | x :: rest =>
                       start_line func + py_index (py_max x rest) line_scores
                   | [] => start_line func
                   end;
           cweId := cid;
           cweDescription := cid ++ py " vulnerability with "
                               ++ format_2f cprob ++ py " confidence";
           source := py "CodeGuard Static Analysis";
           probability := prob;
           severityScore := sscore |}.
Proof.
  unfold make_vulnerability. intros H.
  apply bind_inr in H as (line_scores & H1 & H).
  apply bind_inr in H as (cid & H2 & H).
  apply bind_inr in H as (cprob & H3 & H).
  apply bind_inr in H as (sev & H4 & H).
  apply bind_inr in H as (sscore & H5 & H).
  apply bind_inr in H as (probs & H6 & H).
  apply bind_inr in H as (prob & H7 & H).
  apply getkey_inr in H6. apply getitem_inr in H7.
  exists line_scores, cid, cprob, sev, sscore, probs, prob.
  repeat (split; [assumption|]).
  unfold ret in H. injection H as <-. reflexivity.
Qed.

Lemma make_vulnerability_ok (i : nat) (func : FunctionUnit) :
  (has_entry (batch_vul_pred_prob v) i /\
   absent_or_entry (batch_line_scores v) i /\
   absent_or_entry (cwe_id c) i /\
   absent_or_entry (cwe_id_prob c) i /\
   absent_or_entry (batch_sev_class s) i /\
   absent_or_entry (batch_sev_score s) i)
  <-> exists f, make_vulnerability v c s i func = inr f.
Proof.
  split.
  - intros ((probs & Hp & Hi) & H1 & H2 & H3 & H4 & H5).
    apply (getitem_or_ok _ _ []) in H1 as (a1 & H1).
    apply (getitem_or_ok _ _ (py "CWE-119")) in H2 as (a2 & H2).
    apply (getitem_or_ok _ _ (1 # 2)) in H3 as (a3 & H3).
    apply (getitem_or_ok _ _ (py "Medium")) in H4 as (a4 & H4).
    apply (getitem_or_ok _ _ (5 # 1)) in H5 as (a5 & H5).
    apply getitem_ok in Hi as (a6 & H6).
    unfold make_vulnerability. rewrite H1, H2, H3, H4, H5, Hp. cbn [bind getkey ret].
    rewrite H6. cbn [bind]. eauto.
  - intros (f & H).
    apply make_vulnerability_inv in H
      as (a1 & a2 & a3 & a4 & a5 & probs & prob & H1 & H2 & H3 & H4 & H5 & Hp & Hi & _).
    split.
    { exists probs. split; [exact Hp|]. apply nth_error_Some. congruence. }
    repeat split; eapply getitem_or_ok; eauto.
Qed.

Lemma fuse_step_inv (i : nat) (func : FunctionUnit) (acc acc' : list Finding) :
  fuse_step v c s i func acc = inr acc' ->
  has_entry (batch_vul_pred v) i /\
  ((vulnerable v i = false /\ acc' = acc) \/
   (vulnerable v i = true /\
    exists f, make_vulnerability v c s i func = inr f /\ acc' = acc ++ [f])).
Proof.
  unfold fuse_step. intros H.
  apply bind_inr in H as (preds & Hk & H).
  apply bind_inr in H as (pred & Hg & H).
  apply getkey_inr in Hk. apply getitem_inr in Hg.
  split.
  { exists preds. split; [exact Hk|]. apply nth_error_Some. congruence. }
  unfold vulnerable. rewrite Hk, Hg.
  destruct (pred =? 1)%Z.
  - right. split; [reflexivity|].
    apply bind_inr in H as (f & Hf & H). exists f. split; [exact Hf|].
    unfold ret in H. now injection H.
  - left. split; [reflexivity|]. unfold ret in H. now injection H.
Qed.

Lemma fuse_step_ok (i : nat) (func : FunctionUnit) (acc : list Finding) :
  entries_at v c s i <-> exists acc', fuse_step v c s i func acc = inr acc'.
Proof.
  split.
  - intros ((preds & Hk & Hi) & Hv).
    apply getitem_ok in Hi as (pred & Hg).
    unfold fuse_step. rewrite Hk. cbn [getkey bind ret]. rewrite Hg. cbn [bind].
    destruct (pred =? 1)%Z eqn:E; [|eauto].
    assert (Hvi : vulnerable v i = true).
    { apply vulnerable_true. exists preds. split; [exact Hk|].
      apply getitem_inr in Hg. apply Z.eqb_eq in E. now subst pred. }
    apply Hv, (make_vulnerability_ok i func) in Hvi as (f & Hf).
    rewrite Hf. cbn [bind]. eauto.
  - intros (acc' & H).
    apply fuse_step_inv in H as (Hp & [(Hv & _) | (Hv & f & Hf & _)]).
    + split; [exact Hp | congruence].
    + split; [exact Hp | intros _]. apply (make_vulnerability_ok i func). eauto.
Qed.

Lemma fuse_from_inv (functions : list FunctionUnit) :
  forall (pre : list FunctionUnit) (acc fs : list Finding),
    fuse_from v c s (length pre) functions acc = inr fs ->
    exists new, fs = acc ++ new /\
      Forall2 (emitted_by v c s (pre ++ functions))
              (filter (vulnerable v) (seq (length pre) (length functions))) new.
Proof.
  induction functions as [|func functions IH]; intros pre acc fs H.
  - cbn in H. unfold ret in H. injection H as <-. exists [].
    rewrite app_nil_r. split; [reflexivity | constructor].
  - cbn [fuse_from] in H. apply bind_inr in H as (acc1 & Hstep & H).
    specialize (IH (pre ++ [func]) acc1 fs).
    rewrite length_app, Nat.add_1_r, <- app_assoc in IH. cbn [app] in IH.
    destruct (IH H) as (new & -> & Hall).
    cbn [length seq filter].
    apply fuse_step_inv in Hstep as (_ & [(Hv & ->) | (Hv & f & Hf & ->)]); rewrite Hv.
    + exists new. split; [reflexivity | exact Hall].
    + exists (f :: new). split; [now rewrite <- app_assoc|].
      constructor; [|exact Hall].
      exists func. split; [|exact Hf].
      rewrite nth_error_app2, Nat.sub_diag by lia. reflexivity.
Qed.

Lemma fuse_from_ok (functions : list FunctionUnit) :
  forall (i : nat) (acc : list Finding),
    (forall j, i <= j < i + length functions -> entries_at v c s j) <->
    exists fs, fuse_from v c s i functions acc = inr fs.
Proof.
  induction functions as [|func functions IH]; intros i acc.
  - cbn. split; [eauto | intros _ j Hj; lia].
  - cbn [fuse_from length]. split.
    + intros Hall.
      destruct (proj1 (fuse_step_ok i func acc)) as (acc1 & Hs); [apply Hall; lia|].
      rewrite Hs. cbn [bind]. apply IH. intros j Hj. apply Hall. lia.
    + intros (fs & H). apply bind_inr in H as (acc1 & Hs & H).
      intros j Hj. destruct (Nat.eq_dec j i) as [->|Hne].
      * apply (fuse_step_ok i func acc). eauto.
      * apply (proj2 (IH (S i) acc1)); [eauto | lia].
Qed.

Lemma fuse_inv (functions : list FunctionUnit) (fs : list Finding) :
  fuse v c s functions = inr fs ->
  Forall2 (emitted_by v c s functions)
          (vulnerable_indices v (length functions)) fs.
Proof.
  intros H. apply (fuse_from_inv functions []) in H as (new & -> & Hall).
  exact Hall.
Qed.

Lemma vulnerable_indices_spec (n i : nat) :
  In i (vulnerable_indices v n) <-> i < n /\ vulnerable v i = true.
Proof.
  unfold vulnerable_indices. rewrite filter_In, in_seq. intuition lia.
Qed.

Lemma vulnerable_indices_NoDup (n : nat) : NoDup (vulnerable_indices v n).
Proof. apply NoDup_filter, seq_NoDup. Qed.

Lemma emitted_id (functions : list FunctionUnit) (j : nat) (f : Finding) :
  emitted_by v c s functions j f -> id f = static_id (j + 1).
Proof.
  intros (func & _ & H).
  apply make_vulnerability_inv in H as (? & ? & ? & ? & ? & ? & ? & H).
  decompose [and] H. subst f. reflexivity.
Qed.

Lemma finding_origin (functions : list FunctionUnit) (fs : list Finding)
      (k : nat) (f : Finding) :
  fuse v c s functions = inr fs -> nth_error fs k = Some f ->
  exists i, nth_error (vulnerable_indices v (length functions)) k = Some i /\
            emitted_by v c s functions i f.
Proof.
  intros H Hk. apply fuse_inv in H.
  exact (Forall2_nth_error_r H k Hk).
Qed.

End FusionFacts.

(** ** Fusion: identifiers *)

(** C2, as stated, fails: when only the second of two units is flagged,
    the first (and only) finding emitted has id ["STATIC-2"], not
    ["STATIC-1"]. *)
Lemma first_finding_is_numbered_2 :
  ~ (forall fs k f,
        fuse second_flagged no_cwe no_sev [unit_5_6; unit_7_8] = inr fs ->
        nth_error fs k = Some f -> id f = static_id (k + 1)).
Proof.
  intros H.
  destruct (fuse second_flagged no_cwe no_sev [unit_5_6; unit_7_8]) as [e|fs] eqn:E;
    vm_compute in E; [discriminate|].
  injection E as <-.
  specialize (H _ 0 _ eq_refl eq_refl). vm_compute in H. discriminate.
Qed.

(** C2, amended - in every fusion run the k-th finding emitted has id
    ["STATIC-"] followed by [i + 1], where [i] is the 0-based position,
    among all units, of the k-th flagged unit: the number counts units,
    skipped ones included, not emitted findings. *)
Theorem finding_id_follows_unit_index
        (v : VulnResult) (c : CweResult) (s : SevResult)
        (functions : list FunctionUnit) (fs : list Finding) (k : nat) (f : Finding) :
  fuse v c s functions = inr fs ->
  nth_error fs k = Some f ->
  exists i, nth_error (vulnerable_indices v (length functions)) k = Some i /\
            id f = static_id (i + 1).
Proof.
  intros H Hk. destruct (@finding_origin v c s functions fs k f H Hk) as (i & Hi & Hem).
  exists i. split; [exact Hi|]. eapply emitted_id; exact Hem.
Qed.

Lemma finding_id_follows_unit_index_witness :
  fuse second_flagged no_cwe no_sev [unit_5_6; unit_7_8]
    = inr [default_finding 1 7 (9 # 10)] /\
  exists i, nth_error (vulnerable_indices second_flagged 2) 0 = Some i /\
            id (default_finding 1 7 (9 # 10)) = static_id (i + 1).
Proof.
  assert (E : fuse second_flagged no_cwe no_sev [unit_5_6; unit_7_8]
              = inr [default_finding 1 7 (9 # 10)]) by (vm_compute; reflexivity).
  split; [exact E|].
  exact (@finding_id_follows_unit_index second_flagged no_cwe no_sev
           [unit_5_6; unit_7_8] [default_finding 1 7 (9 # 10)] 0
           (default_finding 1 7 (9 # 10)) E eq_refl).
Defined.

(** ** Fusion: skipping and missing entries *)

(** C3, as stated, fails: when ['batch_vul_pred'] has no entry for the
    second unit, the run raises instead of skipping that unit. *)
Lemma missing_flag_fails_the_run :
  ~ (exists fs, fuse short_pred no_cwe no_sev [unit_5_6; unit_7_8] = inr fs).
Proof. intros (fs & H). vm_compute in H. discriminate. Qed.

(** C3, amended - the fusion run completes exactly when the bundles
    have every entry the loop reads: an entry of ['batch_vul_pred'] for each
    unit and, for each flagged unit, an entry of ['batch_vul_pred_prob'] and
    of each optional key that is present (an optional key that is absent
    altogether is replaced by its default); any other missing entry makes
    the run raise.  In a run that completes no finding is emitted for an
    index whose flag is not 1. *)
Theorem fuse_skips_or_fails
        (v : VulnResult) (c : CweResult) (s : SevResult)
        (functions : list FunctionUnit) :
  (well_shaped v c s (length functions) <->
   exists fs, fuse v c s functions = inr fs) /\
  (forall fs i f,
      fuse v c s functions = inr fs -> vulnerable v i = false ->
      In f fs -> id f <> static_id (i + 1)).
Proof.
  split.
  - unfold well_shaped, fuse.
    rewrite <- (fuse_from_ok v c s functions 0 []). cbn [Nat.add].
    split; intros H i Hi; apply H; lia.
  - intros fs i f H Hv Hin Hid.
    apply In_nth_error in Hin as (k & Hk).
    destruct (@finding_origin v c s functions fs k f H Hk) as (j & Hj & Hem).
    apply emitted_id in Hem. rewrite Hem in Hid. apply static_id_inj in Hid.
    assert (j = i) as -> by lia.
    apply nth_error_In, vulnerable_indices_spec in Hj as [_ Hj]. congruence.
Qed.

Lemma fuse_skips_or_fails_witness :
  well_shaped second_flagged no_cwe no_sev 2 /\
  exists fs, fuse second_flagged no_cwe no_sev [unit_5_6; unit_7_8] = inr fs.
Proof.
  assert (W : well_shaped second_flagged no_cwe no_sev 2).
  { intros [|[|i]] Hi; [| |lia]; split.
    - exists [0; 1]%Z. split; [reflexivity | cbn; lia].
    - discriminate.
    - exists [0; 1]%Z. split; [reflexivity | cbn; lia].
    - intros _. split; [|cbn; tauto].
      exists [1 # 10; 9 # 10]. split; [reflexivity | cbn; lia]. }
  split; [exact W|].
  exact (proj1 (proj1 (fuse_skips_or_fails second_flagged no_cwe no_sev
                         [unit_5_6; unit_7_8])) W).
Defined.

(** ** Fusion: the reported line *)

Lemma emitted_line (v : VulnResult) (c : CweResult) (s : SevResult)
      (functions : list FunctionUnit) (i : nat) (func : FunctionUnit) (f : Finding) :
  emitted_by v c s functions i f -> nth_error functions i = Some func ->
  line f = match line_scores_at v i with
           | x :: rest =>
               start_line func + py_index (py_max x rest) (line_scores_at v i)
           | [] => start_line func
           end.
Proof.
  intros (func' & Hf & H) Hfunc. assert (func' = func) as -> by congruence.
  apply make_vulnerability_inv in H
    as (ls & ? & ? & ? & ? & ? & ? & Hls & _ & _ & _ & _ & _ & _ & ->).
  cbn [line]. assert (ls = line_scores_at v i) as ->; [|reflexivity].
  unfold line_scores_at. unfold getitem_or in Hls.
  destruct (batch_line_scores v) as [l|].
  - apply getitem_inr in Hls. symmetry. now apply nth_error_nth.
  - unfold ret in Hls. now injection Hls.
Qed.

(** C4, as stated, fails: when ['batch_line_scores'] is present but has
    no sequence for a flagged unit, no finding with the unit's start line is
    emitted; the run raises. *)
Lemma missing_line_scores_fail_the_run :
  ~ (exists fs f,
        fuse no_score_entry no_cwe no_sev [unit_5_6] = inr fs /\
        In f fs /\ line f = start_line unit_5_6).
Proof. intros (fs & f & H & _). vm_compute in H. discriminate. Qed.

(** C4, amended - in a fusion run that completes, for every flagged
    index [i] exactly one finding is emitted (the one with id
    ["STATIC-"(i+1)]); its line is the unit's start line plus the position
    of the maximum score, the lowest position on ties, when the line scores
    of [i] are non-empty, and the start line itself when
    ['batch_line_scores'] is absent or the sequence is empty; and when the
    sequence is no longer than the unit's line count the line lies within
    [[start_line, end_line]]. *)
Theorem fuse_line_of_flagged_unit
        (v : VulnResult) (c : CweResult) (s : SevResult)
        (functions : list FunctionUnit) (fs : list Finding)
        (i : nat) (func : FunctionUnit) :
  fuse v c s functions = inr fs ->
  nth_error functions i = Some func ->
  vulnerable v i = true ->
  exists k f,
    nth_error fs k = Some f /\ id f = static_id (i + 1) /\
    (forall k' f', nth_error fs k' = Some f' -> id f' = static_id (i + 1) -> k' = k) /\
    match line_scores_at v i with
    | [] => line f = start_line func
    | _ :: _ => exists idx, first_max (line_scores_at v i) idx /\
                            line f = start_line func + idx
    end /\
    (start_line func <= end_line func ->
     length (line_scores_at v i) <= end_line func - start_line func + 1 ->
     start_line func <= line f <= end_line func).
Proof.
  intros H Hfunc Hv.
  assert (Hin : In i (vulnerable_indices v (length functions))).
  { apply vulnerable_indices_spec. split; [|exact Hv].
    apply nth_error_Some. congruence. }
  apply In_nth_error in Hin as (k & Hk).
  destruct (Forall2_nth_error_l (@fuse_inv v c s functions fs H) k Hk) as (f & Hf & Hem).
  exists k, f. split; [exact Hf|]. split; [eapply emitted_id; exact Hem|].
  split.
  - intros k' f' Hk' Hid.
    destruct (@finding_origin v c s functions fs k' f' H Hk') as (j & Hj & Hem').
    apply emitted_id in Hem'. rewrite Hem' in Hid. apply static_id_inj in Hid.
    assert (j = i) as -> by lia.
    exact (@NoDup_nth_error_inj _ _ k' k i (vulnerable_indices_NoDup v _) Hj Hk).
  - rewrite (emitted_line Hem Hfunc).
    destruct (line_scores_at v i) as [|x rest] eqn:E.
    + split; [reflexivity | intros; lia].
    + pose proof (py_index_first_max x rest) as Hmax.
      pose proof (first_max_lt Hmax) as Hlt. split.
      * exists (py_index (py_max x rest) (x :: rest)). split; [exact Hmax | reflexivity].
      * intros Hse Hlen. lia.
Qed.

Lemma fuse_line_of_flagged_unit_witness :
  fuse scenario_C no_cwe no_sev [unit_5_6] = inr [default_finding 0 6 (9 # 10)] /\
  exists k f,
    nth_error [default_finding 0 6 (9 # 10)] k = Some f /\ id f = static_id 1 /\
    (forall k' f', nth_error [default_finding 0 6 (9 # 10)] k' = Some f' ->
                   id f' = static_id 1 -> k' = k) /\
    (exists idx, first_max [1 # 10; 8 # 10] idx /\ line f = 5 + idx) /\
    (5 <= 6 -> 2 <= 6 - 5 + 1 -> 5 <= line f <= 6).
Proof.
  assert (E : fuse scenario_C no_cwe no_sev [unit_5_6]
              = inr [default_finding 0 6 (9 # 10)]) by (vm_compute; reflexivity).
  split; [exact E|].
  exact (@fuse_line_of_flagged_unit scenario_C no_cwe no_sev [unit_5_6]
           [default_finding 0 6 (9 # 10)] 0 unit_5_6 E eq_refl eq_refl).
Defined.

(** ** Fusion: defaults *)

(** C5, as stated, fails: a flagged unit whose probability is absent
    gets no finding with probability 0.0; the run raises
    [KeyError('batch_vul_pred_prob')]. *)
Lemma missing_probability_fails_the_run :
  fuse pred_only no_cwe no_sev [unit_5_6] = inl (KeyError (py "batch_vul_pred_prob")) /\
  ~ (exists fs f,
        fuse pred_only no_cwe no_sev [unit_5_6] = inr fs /\
        In f fs /\ (probability f == 0)%Q).
Proof.
  split; [vm_compute; reflexivity|].
  intros (fs & f & H & _). vm_compute in H. discriminate.
Qed.

(** C5, amended - in a fusion run that completes, every emitted finding
    uses the default literal of each optional key that is absent: cweId
    ["CWE-119"], CWE confidence 0.5 (rendered ["0.50"] in the description),
    severity ["Medium"], severity score 5.0.  The probability has no
    default: it is always the entry of ['batch_vul_pred_prob'] at the unit's
    index. *)
Theorem fuse_defaults
        (v : VulnResult) (c : CweResult) (s : SevResult)
        (functions : list FunctionUnit) (fs : list Finding) (f : Finding) :
  fuse v c s functions = inr fs ->
  In f fs ->
  (cwe_id c = None ->
     cweId f = py "CWE-119" /\
     message f = py "Potential CWE-119 vulnerability detected") /\
  (cwe_id_prob c = None ->
     cweDescription f = cweId f ++ py " vulnerability with 0.50 confidence") /\
  (batch_sev_class s = None -> severity f = py "Medium") /\
  (batch_sev_score s = None -> severityScore f = 5 # 1) /\
  exists i probs,
    id f = static_id (i + 1) /\
    batch_vul_pred_prob v = Some probs /\
    nth_error probs i = Some (probability f).
Proof.
  intros H Hin. apply In_nth_error in Hin as (k & Hk).
  destruct (@finding_origin v c s functions fs k f H Hk) as (i & _ & func & _ & Hmk).
  apply make_vulnerability_inv in Hmk
    as (ls & cid & cprob & sev & sscore & probs & prob
        & _ & Hc & Hcp & Hs & Hss & Hp & Hi & ->).
  cbn [cweId message cweDescription severity severityScore id probability].
  split; [|split; [|split; [|split]]].
  - intros E. rewrite E in Hc. apply getitem_or_absent in Hc. subst cid.
    split; reflexivity.
  - intros E. rewrite E in Hcp. apply getitem_or_absent in Hcp. subst cprob.
    reflexivity.
  - intros E. rewrite E in Hs. now apply getitem_or_absent in Hs.
  - intros E. rewrite E in Hss. now apply getitem_or_absent in Hss.
  - exists i, probs. split; [reflexivity|]. split; assumption.
Qed.

Lemma fuse_defaults_witness :
  fuse scenario_C no_cwe no_sev [unit_5_6] = inr [default_finding 0 6 (9 # 10)] /\
  cweId (default_finding 0 6 (9 # 10)) = py "CWE-119" /\
  severity (default_finding 0 6 (9 # 10)) = py "Medium".
Proof.
  assert (E : fuse scenario_C no_cwe no_sev [unit_5_6]
              = inr [default_finding 0 6 (9 # 10)]) by (vm_compute; reflexivity).
  pose proof (@fuse_defaults scenario_C no_cwe no_sev [unit_5_6]
                [default_finding 0 6 (9 # 10)] (default_finding 0 6 (9 # 10))
                E (or_introl eq_refl)) as (Hc & _ & Hs & _).
  split; [exact E|]. split; [exact (proj1 (Hc eq_refl)) | exact (Hs eq_refl)].
Defined.

(** ** The [try]/[except] boundary *)

Section AnalyzeFacts.
Context {T : CharTables}.
Variable read_text : pystr -> M pystr.
Variable main : list pystr -> bool -> M VulnResult.
Variable main_cwe : list pystr -> bool -> M CweResult.
Variable main_sev : list pystr -> bool -> M SevResult.

(** The branch for an empty list of functions is never taken. *)
Lemma analyze_body_unfold (file_path : pystr) :
  analyze_body read_text main main_cwe main_sev file_path =
  (code <- read_text file_path ;;
   vuln_result <- main (function_codes_of (extract_functions code)) false ;;
   cwe_result <- main_cwe (function_codes_of (extract_functions code)) false ;;
   sev_result <- main_sev (function_codes_of (extract_functions code)) false ;;
   vulnerabilities <- fuse vuln_result cwe_result sev_result (extract_functions code) ;;
   ret {| vulnerabilities := vulnerabilities; errors := [] |}).
Proof.
  unfold analyze_body. destruct (read_text file_path) as [e|code]; [reflexivity|].
  cbn [bind]. pose proof (extract_functions_not_nil code) as Hne.
  destruct (extract_functions code); [congruence | reflexivity].
Qed.


End AnalyzeFacts.

(** When reading the file and the classifiers raise instances of
    [Exception] only: whichever of them, or the fusion loop, raises [e], the
    result has no findings and the single error ["Analysis failed: "]
    followed by [str(e)]; otherwise the result carries the fused findings
    and no error. *)
Theorem analyze_file_catches
        {T : CharTables}
        (read_text : pystr -> M pystr)
        (main : list pystr -> bool -> M VulnResult)
        (main_cwe : list pystr -> bool -> M CweResult)
        (main_sev : list pystr -> bool -> M SevResult)
        (file_path : pystr) :
  let result := analyze_file read_text main main_cwe main_sev file_path in
  (forall e, read_text file_path = inl e -> result = failed e) /\
  (forall code, read_text file_path = inr code ->
     let functions := extract_functions code in
     let function_codes := function_codes_of functions in
     (forall e, main function_codes false = inl e -> result = failed e) /\
     (forall vr, main function_codes false = inr vr ->
        (forall e, main_cwe function_codes false = inl e -> result = failed e) /\
        (forall cr, main_cwe function_codes false = inr cr ->
           (forall e, main_sev function_codes false = inl e -> result = failed e) /\
           (forall sr, main_sev function_codes false = inr sr ->
              (forall e, fuse vr cr sr functions = inl e -> result = failed e) /\
              (forall fs, fuse vr cr sr functions = inr fs ->
                 result = {| vulnerabilities := fs; errors := [] |}))))).
Proof.
  cbv zeta. unfold analyze_file. rewrite analyze_body_unfold.
  split; [intros e ->; reflexivity|].
  intros code ->. cbn [bind].
  split; [intros e ->; reflexivity|].
  intros vr ->. cbn [bind].
  split; [intros e ->; reflexivity|].
  intros cr ->. cbn [bind].
  split; [intros e ->; reflexivity|].
  intros sr ->. cbn [bind].
  split; [intros e ->; reflexivity | intros fs ->; reflexivity].
Qed.

Lemma analyze_file_catches_witness :
  analyze_file (T := ascii_tables) read_empty main_down main_cwe_none main_sev_none
               (py "empty.c")
  = {| vulnerabilities := [];
       errors := [py "Analysis failed: model not loaded"] |}.
Proof.
  exact (proj1 (proj2 (analyze_file_catches (T := ascii_tables) read_empty main_down
                         main_cwe_none main_sev_none (py "empty.c"))
                      [] eq_refl)
               (OtherError (py "model not loaded")) eq_refl).
Defined.




(** * Further properties of the extractor *)

Lemma count_app (c : char) (a b : pystr) :
  count c (a ++ b) = (count c a + count c b)%Z.
Proof. unfold count. rewrite count_occ_app. apply Nat2Z.inj_add. Qed.

Lemma count_nl_cons (c : char) (s : pystr) :
  c <> NL -> count c (NL :: s) = count c s.
Proof.
  intros H. unfold count. rewrite count_occ_cons_neq; [reflexivity | congruence].
Qed.

Lemma count_pos (c : char) (s : pystr) : In c s -> (0 < count c s)%Z.
Proof.
  intros H. unfold count. apply (count_occ_In N.eq_dec) in H. lia.
Qed.

Lemma count_join (c : char) (ls : list pystr) :
  c <> NL ->
  count c (join_nl ls) = fold_right (fun l n => (count c l + n)%Z) 0%Z ls.
Proof.
  intros Hc. induction ls as [|l ls IH]; [reflexivity|].
  destruct ls as [|l2 ls'].
  - cbn. lia.
  - change (join_nl (l :: l2 :: ls')) with (l ++ NL :: join_nl (l2 :: ls')).
    rewrite count_app, count_nl_cons, IH by exact Hc. reflexivity.
Qed.

Lemma balance_join (ls : list pystr) :
  balance ls = (count LBRACE (join_nl ls) - count RBRACE (join_nl ls))%Z.
Proof.
  rewrite !count_join by discriminate.
  induction ls as [|l ls IH]; [reflexivity|].
  rewrite balance_cons, IH. cbn [fold_right]. lia.
Qed.

Lemma firstn_prefix {A} (k' k : nat) (l : list A) :
  k' <= k -> firstn k' (firstn k l) = firstn k' l.
Proof. intros H. rewrite firstn_firstn. f_equal. lia. Qed.

Lemma nth_firstn_skipn {A} (i k : nat) (l : list A) (d : A) :
  1 <= k -> nth 0 (firstn k (skipn i l)) d = nth i l d.
Proof.
  intros Hk. revert l. induction i as [|i IH]; intros l.
  - destruct k; [lia|]. destruct l; reflexivity.
  - destruct l as [|a l]; [|exact (IH l)].
    cbn [skipn]. rewrite firstn_nil. reflexivity.
Qed.

Section MoreExtractFacts.
Context {T : CharTables}.

Lemma unit_at_length (i : nat) (rest : list pystr) : length (unit_at i rest) <= 1.
Proof.
  unfold unit_at. destruct rest as [|line rest]; [cbn; lia|].
  destruct (re_search function_pattern line); [|cbn; lia].
  destruct (_ =? _)%Z; cbn; lia.
Qed.

Lemma scan_lines_length (rest : list pystr) :
  forall i, length (scan_lines i rest []) <= length rest.
Proof.
  induction rest as [|line rest IH]; intros i; [cbn; lia|].
  rewrite scan_lines_cons, length_app. cbn [length].
  pose proof (unit_at_length i (line :: rest)). specialize (IH (S i)). lia.
Qed.

(** Bounds and line count of every returned unit. *)
Lemma extracted_unit_bounds (text : pystr) (u : FunctionUnit) :
  In u (extract_functions text) ->
  1 <= start_line u /\ start_line u <= end_line u /\
  end_line u <= line_count text /\
  split_nl (code u)
  = firstn (end_line u - start_line u + 1) (skipn (start_line u - 1) (split_nl text)) /\
  line_count (code u) = end_line u - start_line u + 1.
Proof.
  intros Hu.
  destruct (extract_functions_cases text) as [[_ E] | [_ E]]; rewrite E in Hu.
  - destruct Hu as [<-|[]]. cbn [whole_file start_line end_line code].
    pose proof (line_count_pos text) as Hp. unfold line_count in *.
    replace (length (split_nl text) - 1 + 1) with (length (split_nl text)) by lia.
    cbn [Nat.sub skipn]. rewrite firstn_all. repeat split; lia.
  - apply scanned_unit in Hu as (i & k & (Hi & _ & Hk & _) & ->).
    destruct (unit_of_shape (split_nl_no_nl text) Hi Hk) as (Hs & Hl & Hb).
    unfold line_count. rewrite Hs, Hl. cbn [unit_of start_line end_line].
    replace (i + k - (i + 1) + 1) with k by lia.
    replace (i + 1 - 1) with i by lia.
    repeat split; lia.
Qed.

(** A complete candidate restricted to its own lines is a complete
    candidate at line 0 of them. *)
Lemma complete_candidate_alone (lines : list pystr) (i k : nat) :
  complete_candidate lines i k ->
  complete_candidate (firstn k (skipn i lines)) 0 k.
Proof.
  intros (Hi & Hm & (Hk & Hz & Hmin)).
  assert (Hlen : length (firstn k (skipn i lines)) = k)
    by (rewrite length_firstn; lia).
  split; [lia|]. split.
  - rewrite nth_firstn_skipn by lia. exact Hm.
  - cbn [skipn]. split; [lia|]. split.
    + rewrite firstn_prefix by lia. exact Hz.
    + intros k' Hk'. rewrite firstn_prefix by lia. now apply Hmin.
Qed.

End MoreExtractFacts.

(** X1 - the code of every returned unit is exactly the lines
    [start_line] to [end_line] of the file: splitting it at newlines gives
    back that block of the file's lines. *)
Theorem unit_code_is_file_lines {T : CharTables} (text : pystr) (u : FunctionUnit) :
  In u (extract_functions text) ->
  split_nl (code u)
  = firstn (end_line u - start_line u + 1) (skipn (start_line u - 1) (split_nl text)).
Proof. intros Hu. apply (extracted_unit_bounds text u Hu). Qed.

Lemma unit_code_is_file_lines_witness :
  In {| code := src ["  if (x) {"; "  }"]%string; start_line := 2; end_line := 3 |}
     (extract_functions (T := ascii_tables) nested_source) /\
  split_nl (src ["  if (x) {"; "  }"]%string)
  = firstn 2 (skipn 1 (split_nl nested_source)).
Proof.
  assert (Hin : In {| code := src ["  if (x) {"; "  }"]%string;
                      start_line := 2; end_line := 3 |}
                   (extract_functions (T := ascii_tables) nested_source))
    by (vm_compute; right; left; reflexivity).
  split; [exact Hin|].
  exact (unit_code_is_file_lines (T := ascii_tables) nested_source _ Hin).
Defined.

(** X2 - a unit found by the scan is the shortest balanced block that
    starts at its first line: its code has as many ['{'] as ['}'], at least
    one of each, and no proper prefix of its lines has brace balance zero.
    Only the whole-file unit of the fallback can be unbalanced. *)
Theorem unit_is_shortest_balanced_block {T : CharTables} (text : pystr) (u : FunctionUnit) :
  In u (extract_functions text) ->
  u = whole_file text \/
  (count LBRACE (code u) = count RBRACE (code u) /\
   (0 < count LBRACE (code u))%Z /\
   forall k', 1 <= k' < line_count (code u) ->
              balance (firstn k' (split_nl (code u))) <> 0%Z).
Proof.
  intros Hu.
  destruct (extract_functions_cases text) as [[_ E] | [_ E]]; rewrite E in Hu.
  - left. destruct Hu as [<-|[]]. reflexivity.
  - right. apply scanned_unit in Hu as (i & k & Hc & ->).
    pose proof Hc as (Hi & Hm & (Hk & Hz & Hmin)).
    destruct (unit_of_shape (split_nl_no_nl text) Hi Hk) as (Hs & Hl & _).
    unfold line_count. rewrite Hs, Hl. cbn [unit_of code].
    rewrite balance_join in Hz. split; [lia|]. split.
    + apply count_pos.
      assert (Hfirst : In LBRACE (nth 0 (firstn k (skipn i (split_nl text))) [])).
      { rewrite nth_firstn_skipn by lia. now apply candidate_has_brace. }
      rewrite <- (join_split (join_nl _)), split_join.
      * destruct (firstn k (skipn i (split_nl text))) as [|l ls] eqn:Efl;
          [cbn in Hl; lia|].
        cbn [nth] in Hfirst. destruct ls as [|l2 ls'].
        -- exact Hfirst.
        -- change (join_nl (l :: l2 :: ls')) with (l ++ NL :: join_nl (l2 :: ls')).
           apply in_or_app. now left.
      * intros Efl. rewrite Efl in Hl. cbn in Hl. lia.
      * rewrite <- Hs. apply split_nl_no_nl.
    + intros k' Hk'. rewrite firstn_prefix by lia. now apply Hmin.
Qed.

Lemma unit_is_shortest_balanced_block_witness :
  count LBRACE (src ["  if (x) {"; "  }"]%string)
  = count RBRACE (src ["  if (x) {"; "  }"]%string).
Proof.
  assert (Hin : In {| code := src ["  if (x) {"; "  }"]%string;
                      start_line := 2; end_line := 3 |}
                   (extract_functions (T := ascii_tables) nested_source))
    by (vm_compute; right; left; reflexivity).
  destruct (unit_is_shortest_balanced_block (T := ascii_tables) nested_source _ Hin)
    as [Hw | (Hb & _)].
  - vm_compute in Hw. discriminate.
  - exact Hb.
Defined.

(** X3 - when no line is a candidate whose braces close (no line
    matches the pattern, or every matching line stays unbalanced to the end
    of the file), the result is the single whole-file unit. *)
Theorem unbalanced_candidates_fall_back {T : CharTables} (text : pystr) :
  (forall i k, ~ complete_candidate (split_nl text) i k) ->
  extract_functions text = [whole_file text].
Proof.
  intros Hnone.
  destruct (extract_functions_cases text) as [[_ E] | [Hne _]]; [exact E|].
  exfalso. destruct (scan_lines 0 (split_nl text) []) as [|u us] eqn:Es; [congruence|].
  assert (Hu : In u (scan_lines 0 (split_nl text) [])) by (rewrite Es; now left).
  apply scanned_unit in Hu as (i & k & Hc & _). exact (Hnone i k Hc).
Qed.

Lemma unbalanced_candidates_fall_back_witness :
  extract_functions (T := ascii_tables) unbalanced_source
  = [ {| code := unbalanced_source; start_line := 1; end_line := 2 |} ].
Proof.
  apply (unbalanced_candidates_fall_back (T := ascii_tables) unbalanced_source).
  intros i k (Hi & Hm & (Hk & Hz & _)).
  assert (Hlen : length (split_nl unbalanced_source) = 2) by reflexivity.
  rewrite length_skipn, Hlen in Hk. rewrite Hlen in Hi.
  destruct i as [|[|i]]; [| |lia].
  - destruct k as [|[|[|k]]]; [lia| | |lia]; vm_compute in Hz; discriminate.
  - vm_compute in Hm. discriminate.
Defined.

(** X4 - each line opens at most one unit: the number of returned units
    never exceeds the number of lines of the file. *)
Theorem extract_functions_at_most_one_per_line {T : CharTables} (text : pystr) :
  length (extract_functions text) <= line_count text.
Proof.
  destruct (extract_functions_cases text) as [[_ ->] | [_ ->]].
  - cbn. apply line_count_pos.
  - apply scan_lines_length.
Qed.

(** X5 - extraction is stable on its own output: running the extractor
    on the code of any returned unit finds that whole code again as its
    first unit, renumbered from line 1. *)
Theorem extract_functions_of_unit_code {T : CharTables} (text : pystr) (u : FunctionUnit) :
  In u (extract_functions text) ->
  hd_error (extract_functions (code u))
  = Some {| code := code u; start_line := 1;
            end_line := end_line u - start_line u + 1 |}.
Proof.
  intros Hu.
  destruct (extract_functions_cases text) as [[_ E] | [_ E]].
  - rewrite E in Hu. destruct Hu as [<-|[]]. cbn [whole_file code start_line end_line].
    rewrite E. cbn [hd_error]. unfold whole_file. pose proof (line_count_pos text).
    replace (line_count text - 1 + 1) with (line_count text) by lia. reflexivity.
  - rewrite E in Hu. apply scanned_unit in Hu as (i & k & Hc & ->).
    pose proof Hc as (Hi & _ & (Hk & _)).
    destruct (unit_of_shape (split_nl_no_nl text) Hi Hk) as (Hs & Hl & _).
    apply complete_candidate_alone in Hc.
    cbn [unit_of code start_line end_line] in *.
    set (fl := firstn k (skipn i (split_nl text))) in *.
    replace (i + k - (i + 1) + 1) with k by lia.
    assert (Hin : In (unit_of fl 0 k) (scan_lines 0 (split_nl (join_nl fl)) [])).
    { apply scanned_unit. exists 0, k. rewrite Hs. split; [exact Hc | reflexivity]. }
    assert (Hunit : unit_of fl 0 k
                    = {| code := join_nl fl; start_line := 1; end_line := k |}).
    { unfold unit_of. cbn [skipn Nat.add]. f_equal.
      rewrite <- Hl at 1. now rewrite firstn_all. }
    rewrite Hunit in Hin. clear Hunit.
    destruct (extract_functions_cases (join_nl fl)) as [[E' _] | [_ ->]].
    + rewrite E' in Hin. destruct Hin.
    + rewrite Hs in *. destruct fl as [|l fl']; [cbn in Hl; lia|].
      rewrite scan_lines_cons in *.
      pose proof (unit_at_length 0 (l :: fl')) as Hone.
      destruct (unit_at 0 (l :: fl')) as [|u0 [|u1 us]] eqn:Eu; [| |cbn in Hone; lia].
      * exfalso. cbn [app] in Hin.
        pose proof (proj2 (scan_lines_sorted fl' 1)) as Hb.
        apply (in_map start_line) in Hin. cbn [start_line] in Hin.
        apply (proj1 (Forall_forall _ _) Hb) in Hin. lia.
      * cbn [app hd_error]. f_equal.
        assert (Hu0 : In u0 (unit_at 0 (l :: fl'))) by (rewrite Eu; now left).
        apply unit_at_iff in Hu0 as (k0 & _ & Hfz0 & ->).
        destruct Hc as (_ & _ & Hfz). cbn [skipn] in Hfz.
        rewrite (first_zero_unique Hfz0 Hfz). cbn [Nat.add].
        f_equal. rewrite <- Hl at 1. now rewrite firstn_all.
Qed.

Lemma extract_functions_of_unit_code_witness :
  hd_error (extract_functions (T := ascii_tables) (src ["  if (x) {"; "  }"]%string))
  = Some {| code := src ["  if (x) {"; "  }"]%string; start_line := 1; end_line := 2 |}.
Proof.
  assert (Hin : In {| code := src ["  if (x) {"; "  }"]%string;
                      start_line := 2; end_line := 3 |}
                   (extract_functions (T := ascii_tables) nested_source))
    by (vm_compute; right; left; reflexivity).
  exact (extract_functions_of_unit_code (T := ascii_tables) nested_source _ Hin).
Defined.

(** * Further properties of the fusion loop *)

Lemma NoDup_map_injective {A B} (g : A -> B) (l : list A) :
  (forall x y, g x = g y -> x = y) -> NoDup l -> NoDup (map g l).
Proof.
  intros Hg. induction 1 as [|a l Hnin _ IH]; cbn; constructor; [|exact IH].
  intros Hin. apply in_map_iff in Hin as (x & Hx & Hin).
  apply Hg in Hx. subst x. contradiction.
Qed.

Lemma Forall2_map_eq {A B C} (R : A -> B -> Prop) (g : A -> C) (h : B -> C)
      (l1 : list A) (l2 : list B) :
  (forall a b, R a b -> h b = g a) -> Forall2 R l1 l2 -> map h l2 = map g l1.
Proof.
  intros Hgh. induction 1 as [|a b l1 l2 Hab _ IH]; cbn; [reflexivity|].
  now rewrite IH, (Hgh a b Hab).
Qed.

Lemma finding_ids (v : VulnResult) (c : CweResult) (s : SevResult)
      (functions : list FunctionUnit) (fs : list Finding) :
  fuse v c s functions = inr fs ->
  map id fs = map (fun i => static_id (i + 1)) (vulnerable_indices v (length functions)).
Proof.
  intros H. apply fuse_inv in H.
  apply (Forall2_map_eq (R := emitted_by v c s functions)); [|exact H].
  intros i f Hem. eapply emitted_id; exact Hem.
Qed.

Lemma vulnerable_indices_length (v : VulnResult) (n : nat) :
  length (vulnerable_indices v n) <= n.
Proof.
  unfold vulnerable_indices.
  pose proof (filter_length_le (vulnerable v) (seq 0 n)) as H.
  now rewrite length_seq in H.
Qed.

Lemma make_vulnerability_start (v : VulnResult) (c : CweResult) (s : SevResult)
      (i : nat) (f1 f2 : FunctionUnit) :
  start_line f1 = start_line f2 ->
  make_vulnerability v c s i f1 = make_vulnerability v c s i f2.
Proof. intros H. unfold make_vulnerability. now rewrite H. Qed.

Lemma fuse_from_start (v : VulnResult) (c : CweResult) (s : SevResult)
      (us : list FunctionUnit) :
  forall us' i acc,
    map start_line us = map start_line us' ->
    fuse_from v c s i us acc = fuse_from v c s i us' acc.
Proof.
  induction us as [|u us IH]; intros [|u' us'] i acc H; cbn in H; try discriminate;
    [reflexivity|].
  injection H as Hu Hus. cbn [fuse_from].
  assert (Hstep : fuse_step v c s i u acc = fuse_step v c s i u' acc).
  { unfold fuse_step. now rewrite (make_vulnerability_start v c s i u u' Hu). }
  rewrite Hstep.
  destruct (fuse_step v c s i u' acc) as [e|acc1]; [reflexivity|].
  cbn [bind]. now apply IH.
Qed.

(** X6 - a fusion run that completes emits exactly one finding per
    flagged unit and none else: there are as many findings as flagged
    indices, never more than units, and their ids are pairwise distinct. *)
Theorem findings_count_and_ids
        (v : VulnResult) (c : CweResult) (s : SevResult)
        (functions : list FunctionUnit) (fs : list Finding) :
  fuse v c s functions = inr fs ->
  length fs = length (vulnerable_indices v (length functions)) /\
  length fs <= length functions /\
  NoDup (map id fs).
Proof.
  intros H. pose proof (@finding_ids v c s functions fs H) as Hids.
  assert (Hlen : length fs = length (vulnerable_indices v (length functions))).
  { rewrite <- (length_map id fs), Hids. apply length_map. }
  split; [exact Hlen|]. split.
  - rewrite Hlen. apply vulnerable_indices_length.
  - rewrite Hids. apply NoDup_map_injective.
    + intros x y Hxy. apply static_id_inj in Hxy. lia.
    + apply vulnerable_indices_NoDup.
Qed.

Lemma findings_count_and_ids_witness :
  length [default_finding 1 7 (9 # 10)] = length (vulnerable_indices second_flagged 2) /\
  length [default_finding 1 7 (9 # 10)] <= 2 /\
  NoDup (map id [default_finding 1 7 (9 # 10)]).
Proof.
  assert (E : fuse second_flagged no_cwe no_sev [unit_5_6; unit_7_8]
              = inr [default_finding 1 7 (9 # 10)]) by (vm_compute; reflexivity).
  exact (@findings_count_and_ids second_flagged no_cwe no_sev [unit_5_6; unit_7_8]
           [default_finding 1 7 (9 # 10)] E).
Defined.

(** X7 - the fusion loop reads nothing of a unit but its start line:
    two lists of units with the same start lines give the same findings, or
    the same exception, whatever their code and end lines. *)
Theorem fuse_reads_only_start_lines
        (v : VulnResult) (c : CweResult) (s : SevResult)
        (us us' : list FunctionUnit) :
  map start_line us = map start_line us' ->
  fuse v c s us = fuse v c s us'.
Proof. intros H. unfold fuse. now apply fuse_from_start. Qed.

Lemma fuse_reads_only_start_lines_witness :
  fuse scenario_C no_cwe no_sev [unit_5_6]
  = fuse scenario_C no_cwe no_sev [ {| code := []; start_line := 5; end_line := 5 |} ].
Proof.
  apply (@fuse_reads_only_start_lines scenario_C no_cwe no_sev [unit_5_6]
           [ {| code := []; start_line := 5; end_line := 5 |} ]).
  reflexivity.
Defined.

(** X8 - every finding of a completed run carries the fixed tags and is
    consistent with its own CWE id: type ["static"], source
    ["CodeGuard Static Analysis"], the message names the finding's [cweId],
    and the description starts with it. *)
Theorem finding_fixed_fields
        (v : VulnResult) (c : CweResult) (s : SevResult)
        (functions : list FunctionUnit) (fs : list Finding) (f : Finding) :
  fuse v c s functions = inr fs ->
  In f fs ->
  type f = py "static" /\
  source f = py "CodeGuard Static Analysis" /\
  message f = py "Potential " ++ cweId f ++ py " vulnerability detected" /\
  exists confidence,
    cweDescription f = cweId f ++ py " vulnerability with " ++ confidence
                         ++ py " confidence".
Proof.
  intros H Hin. apply In_nth_error in Hin as (k & Hk).
  destruct (@finding_origin v c s functions fs k f H Hk) as (i & _ & func & _ & Hmk).
  apply make_vulnerability_inv in Hmk
    as (ls & cid & cprob & sev & sscore & probs & prob & _ & _ & _ & _ & _ & _ & _ & ->).
  cbn [type source message cweId cweDescription].
  repeat split. now exists (format_2f cprob).
Qed.

Lemma finding_fixed_fields_witness :
  type (default_finding 0 6 (9 # 10)) = py "static" /\
  source (default_finding 0 6 (9 # 10)) = py "CodeGuard Static Analysis".
Proof.
  assert (E : fuse scenario_C no_cwe no_sev [unit_5_6]
              = inr [default_finding 0 6 (9 # 10)]) by (vm_compute; reflexivity).
  destruct (@finding_fixed_fields scenario_C no_cwe no_sev [unit_5_6]
              [default_finding 0 6 (9 # 10)] (default_finding 0 6 (9 # 10))
              E (or_introl eq_refl)) as (Ht & Hs & _).
  split; [exact Ht | exact Hs].
Defined.

(** * Further properties of [analyze_file] *)

Lemma fuse_without_flags (v : VulnResult) (c : CweResult) (s : SevResult)
      (functions : list FunctionUnit) :
  functions <> [] -> batch_vul_pred v = None ->
  fuse v c s functions = inl (KeyError (py "batch_vul_pred")).
Proof.
  intros Hne Hnone. destruct functions as [|func functions]; [congruence|].
  unfold fuse. cbn [fuse_from]. unfold fuse_step. rewrite Hnone. reflexivity.
Qed.

Section MoreAnalyzeFacts.
Context {T : CharTables}.
Variable read_text : pystr -> M pystr.
Variable main : list pystr -> bool -> M VulnResult.
Variable main_cwe : list pystr -> bool -> M CweResult.
Variable main_sev : list pystr -> bool -> M SevResult.

(** The outcome of [analyze_file], by cases on the steps of the [try]
    block. *)
Lemma analyze_file_cases (file_path : pystr) :
  (exists e, analyze_file read_text main main_cwe main_sev file_path = failed e)
  \/ (exists text vr cr sr fs,
        read_text file_path = inr text /\
        main (function_codes_of (extract_functions text)) false = inr vr /\
        main_cwe (function_codes_of (extract_functions text)) false = inr cr /\
        main_sev (function_codes_of (extract_functions text)) false = inr sr /\
        fuse vr cr sr (extract_functions text) = inr fs /\
        analyze_file read_text main main_cwe main_sev file_path
        = {| vulnerabilities := fs; errors := [] |}).
Proof.
  unfold analyze_file. rewrite analyze_body_unfold.
  destruct (read_text file_path) as [e|text] eqn:Er; [left; now exists e|]. cbn [bind].
  destruct (main _ false) as [e|vr] eqn:Em; [left; now exists e|]. cbn [bind].
  destruct (main_cwe _ false) as [e|cr] eqn:Ec; [left; now exists e|]. cbn [bind].
  destruct (main_sev _ false) as [e|sr] eqn:Es; [left; now exists e|]. cbn [bind].
  destruct (fuse vr cr sr _) as [e|fs] eqn:Ef; [left; now exists e|]. cbn [bind ret].
  right. exists text, vr, cr, sr, fs.
  split; [reflexivity|]. split; [exact Em|]. split; [exact Ec|].
  split; [exact Es|]. split; [exact Ef | reflexivity].
Qed.

End MoreAnalyzeFacts.

(** X9 - the result of [analyze_file] never mixes findings and errors.
    Either every step succeeded (the file was read, the three classifiers
    returned, every entry the loop reads was present), the errors are empty
    and the findings are those of the fusion loop; or the findings are empty
    and there is exactly one error, ["Analysis failed: "] followed by the
    message of the exception. *)
Theorem analyze_file_result_shape
        {T : CharTables}
        (read_text : pystr -> M pystr)
        (main : list pystr -> bool -> M VulnResult)
        (main_cwe : list pystr -> bool -> M CweResult)
        (main_sev : list pystr -> bool -> M SevResult)
        (file_path : pystr) :
  let result := analyze_file read_text main main_cwe main_sev file_path in
  (errors result = [] /\
   exists text vr cr sr,
     read_text file_path = inr text /\
     main (function_codes_of (extract_functions text)) false = inr vr /\
     main_cwe (function_codes_of (extract_functions text)) false = inr cr /\
     main_sev (function_codes_of (extract_functions text)) false = inr sr /\
     well_shaped vr cr sr (length (extract_functions text)) /\
     fuse vr cr sr (extract_functions text) = inr (vulnerabilities result))
  \/ (vulnerabilities result = [] /\
      exists e, errors result = [py "Analysis failed: " ++ str_exn e]).
Proof.
  cbv zeta.
  destruct (analyze_file_cases read_text main main_cwe main_sev file_path)
    as [(e & ->) | (text & vr & cr & sr & fs & Hr & Hm & Hc & Hs & Hf & ->)].
  - right. split; [reflexivity | now exists e].
  - left. split; [reflexivity|]. exists text, vr, cr, sr. cbn [vulnerabilities].
    split; [exact Hr|]. split; [exact Hm|]. split; [exact Hc|].
    split; [exact Hs|]. split; [|exact Hf].
    intros i Hi.
    apply (proj2 (fuse_from_ok vr cr sr (extract_functions text) 0 [])); [|lia].
    exists fs. exact Hf.
Qed.

(** X10 - every reported line is a line of the analysed file: when the
    vulnerability classifier returns, for each unit, no more line scores
    than the unit has lines, every finding of the result has
    [1 <= line <= number of lines of the file]. *)
Theorem reported_lines_are_in_file
        {T : CharTables}
        (read_text : pystr -> M pystr)
        (main : list pystr -> bool -> M VulnResult)
        (main_cwe : list pystr -> bool -> M CweResult)
        (main_sev : list pystr -> bool -> M SevResult)
        (file_path text : pystr) (vr : VulnResult) :
  read_text file_path = inr text ->
  main (function_codes_of (extract_functions text)) false = inr vr ->
  (forall i u, nth_error (extract_functions text) i = Some u ->
               length (line_scores_at vr i) <= line_count (code u)) ->
  forall f, In f (vulnerabilities (analyze_file read_text main main_cwe main_sev file_path)) ->
            1 <= line f <= line_count text.
Proof.
  intros Hr Hm Hscores f Hin.
  destruct (analyze_file_cases read_text main main_cwe main_sev file_path)
    as [(e & E) | (text' & vr' & cr & sr & fs & Hr' & Hm' & _ & _ & Hf & E)];
    rewrite E in Hin; [destruct Hin|].
  rewrite Hr in Hr'. injection Hr' as <-. rewrite Hm in Hm'. injection Hm' as <-.
  cbn [vulnerabilities] in Hin. apply In_nth_error in Hin as (k & Hk).
  destruct (@finding_origin vr cr sr (extract_functions text) fs k f Hf Hk)
    as (i & _ & Hem).
  pose proof Hem as (func & Hfunc & _).
  rewrite (emitted_line Hem Hfunc).
  specialize (Hscores i func Hfunc).
  destruct (extracted_unit_bounds text func (nth_error_In _ _ Hfunc))
    as (H1 & H2 & H3 & _ & H4).
  destruct (line_scores_at vr i) as [|x rest] eqn:Els; [lia|].
  pose proof (first_max_lt (py_index_first_max x rest)) as Hlt. lia.
Qed.

Lemma reported_lines_are_in_file_witness :
  vulnerabilities (analyze_file (T := ascii_tables) read_nested main_flag_all
                                main_cwe_none main_sev_none (py "a.c"))
  = [default_finding 0 2 (9 # 10); default_finding 1 3 (9 # 10)] /\
  forall f, In f [default_finding 0 2 (9 # 10); default_finding 1 3 (9 # 10)] ->
            1 <= line f <= 4.
Proof.
  assert (E : vulnerabilities (analyze_file (T := ascii_tables) read_nested main_flag_all
                                            main_cwe_none main_sev_none (py "a.c"))
              = [default_finding 0 2 (9 # 10); default_finding 1 3 (9 # 10)])
    by (vm_compute; reflexivity).
  split; [exact E|]. rewrite <- E.
  apply (@reported_lines_are_in_file ascii_tables read_nested main_flag_all
           main_cwe_none main_sev_none (py "a.c") nested_source
           {| batch_vul_pred := Some [1; 1]%Z;
              batch_vul_pred_prob := Some [9 # 10; 9 # 10];
              batch_line_scores := Some [[1 # 10; 8 # 10]; [1 # 10; 8 # 10]] |}).
  - reflexivity.
  - vm_compute. reflexivity.
  - intros i u H.
    destruct i as [|[|i]]; vm_compute in H.
    + injection H as <-. vm_compute. lia.
    + injection H as <-. vm_compute. lia.
    + destruct i; discriminate.
Defined.

(** X11 - there are never more findings than lines in the file. *)
Theorem findings_at_most_one_per_line
        {T : CharTables}
        (read_text : pystr -> M pystr)
        (main : list pystr -> bool -> M VulnResult)
        (main_cwe : list pystr -> bool -> M CweResult)
        (main_sev : list pystr -> bool -> M SevResult)
        (file_path text : pystr) :
  read_text file_path = inr text ->
  length (vulnerabilities (analyze_file read_text main main_cwe main_sev file_path))
  <= line_count text.
Proof.
  intros Hr.
  destruct (analyze_file_cases read_text main main_cwe main_sev file_path)
    as [(e & ->) | (text' & vr & cr & sr & fs & Hr' & _ & _ & _ & Hf & ->)].
  - cbn. lia.
  - rewrite Hr in Hr'. injection Hr' as <-. cbn [vulnerabilities].
    pose proof (@finding_ids vr cr sr (extract_functions text) fs Hf) as Hids.
    apply (f_equal (@length _)) in Hids. rewrite !length_map in Hids.
    pose proof (vulnerable_indices_length vr (length (extract_functions text))).
    pose proof (scan_lines_length (split_nl text) 0) as Hscan.
    destruct (extract_functions_cases text) as [[_ E] | [_ E]]; rewrite E in *.
    + cbn [length] in *. pose proof (line_count_pos text). lia.
    + unfold line_count. lia.
Qed.

Lemma findings_at_most_one_per_line_witness :
  length (vulnerabilities (analyze_file (T := ascii_tables) read_nested main_flag_all
                                        main_cwe_none main_sev_none (py "a.c")))
  <= line_count nested_source.
Proof.
  apply (@findings_at_most_one_per_line ascii_tables read_nested main_flag_all
           main_cwe_none main_sev_none (py "a.c") nested_source).
  reflexivity.
Defined.

(** X12 - when the vulnerability classifier returns a dictionary
    without the key ['batch_vul_pred'] (the other two classifiers
    returning), the analysis of any readable file reports no finding and the
    single error ["Analysis failed: 'batch_vul_pred'"]. *)
Theorem missing_flags_key_is_reported
        {T : CharTables}
        (read_text : pystr -> M pystr)
        (main : list pystr -> bool -> M VulnResult)
        (main_cwe : list pystr -> bool -> M CweResult)
        (main_sev : list pystr -> bool -> M SevResult)
        (file_path text : pystr) (vr : VulnResult) (cr : CweResult) (sr : SevResult) :
  read_text file_path = inr text ->
  main (function_codes_of (extract_functions text)) false = inr vr ->
  main_cwe (function_codes_of (extract_functions text)) false = inr cr ->
  main_sev (function_codes_of (extract_functions text)) false = inr sr ->
  batch_vul_pred vr = None ->
  analyze_file read_text main main_cwe main_sev file_path
  = {| vulnerabilities := [];
       errors := [py "Analysis failed: 'batch_vul_pred'"] |}.
Proof.
  intros Hr Hm Hc Hs Hnone.
  unfold analyze_file. rewrite analyze_body_unfold, Hr. cbn [bind].
  rewrite Hm. cbn [bind]. rewrite Hc. cbn [bind]. rewrite Hs. cbn [bind].
  rewrite (fuse_without_flags vr cr sr (extract_functions_not_nil text) Hnone).
  reflexivity.
Qed.

Lemma missing_flags_key_is_reported_witness :
  analyze_file (T := ascii_tables) read_nested main_no_pred main_cwe_none main_sev_none
               (py "a.c")
  = {| vulnerabilities := [];
       errors := [py "Analysis failed: 'batch_vul_pred'"] |}.
Proof.
  apply (@missing_flags_key_is_reported ascii_tables read_nested main_no_pred
           main_cwe_none main_sev_none (py "a.c") nested_source
           {| batch_vul_pred := None;
              batch_vul_pred_prob := Some [9 # 10; 9 # 10];
              batch_line_scores := None |} no_cwe no_sev);
    reflexivity.
Defined.

(** * Edge cases *)

(** X16 - a candidate line that closes its own braces is a unit of one
    line: when line [i] matches the pattern and has as many ['{'] as ['}'],
    the unit with that line as code and [start_line = end_line = i + 1] is
    returned, wherever the line stands in the file. *)
Theorem one_line_function_is_a_unit {T : CharTables} (text : pystr) (i : nat) :
  i < line_count text ->
  re_search function_pattern (nth i (split_nl text) []) = true ->
  count LBRACE (nth i (split_nl text) []) = count RBRACE (nth i (split_nl text) []) ->
  In {| code := nth i (split_nl text) []; start_line := i + 1; end_line := i + 1 |}
     (extract_functions text).
Proof.
  unfold line_count. intros Hi Hm Hb.
  set (lines := split_nl text) in *.
  assert (Hskip : exists rest, skipn i lines = nth i lines [] :: rest).
  { clearbody lines. clear Hm Hb. revert lines Hi.
    induction i as [|i IH]; intros [|l ls] Hi; cbn in Hi; try lia.
    - now exists ls.
    - apply IH. lia. }
  destruct Hskip as (rest & Hskip).
  assert (Hc : complete_candidate lines i 1).
  { split; [exact Hi|]. split; [exact Hm|]. rewrite Hskip.
    split; [cbn; lia|]. split; [cbn; lia | intros k' Hk'; lia]. }
  assert (Hin : In (unit_of lines i 1) (scan_lines 0 lines [])).
  { apply scanned_unit. now exists i, 1. }
  unfold unit_of in Hin. rewrite Hskip in Hin. cbn [firstn join_nl] in Hin.
  destruct (extract_functions_cases text) as [[E _] | [_ ->]]; [|exact Hin].
  fold lines in E. rewrite E in Hin. destruct Hin.
Qed.

Lemma one_line_function_is_a_unit_witness :
  In {| code := py "int one() { return 1; }"; start_line := 2; end_line := 2 |}
     (extract_functions (T := ascii_tables)
        (src ["int x;"; "int one() { return 1; }"; "int y;"]%string)).
Proof.
  apply (@one_line_function_is_a_unit ascii_tables
           (src ["int x;"; "int one() { return 1; }"; "int y;"]%string) 1).
  - vm_compute. lia.
  - vm_compute. reflexivity.
  - vm_compute. reflexivity.
Defined.

Lemma fuse_step_unflagged (v : VulnResult) (c c' : CweResult) (s s' : SevResult)
      (i : nat) (u : FunctionUnit) (acc : list Finding) :
  vulnerable v i = false ->
  fuse_step v c s i u acc = fuse_step v c' s' i u acc.
Proof.
  unfold vulnerable, fuse_step, getkey, getitem. intros Hv.
  destruct (batch_vul_pred v) as [preds|]; [|reflexivity]. cbn [bind ret].
  destruct (nth_error preds i) as [pred|]; [|reflexivity]. cbn [bind ret].
  now rewrite Hv.
Qed.

Lemma fuse_from_unflagged (v : VulnResult) (c c' : CweResult) (s s' : SevResult)
      (us : list FunctionUnit) :
  forall i acc,
    (forall j, i <= j < i + length us -> vulnerable v j = false) ->
    fuse_from v c s i us acc = fuse_from v c' s' i us acc.
Proof.
  induction us as [|u us IH]; intros i acc H; [reflexivity|].
  cbn [fuse_from length] in *.
  rewrite (fuse_step_unflagged v c c' s s' i u acc) by (apply H; lia).
  destruct (fuse_step v c' s' i u acc) as [e|acc1]; [reflexivity|].
  cbn [bind]. apply IH. intros j Hj. apply H. lia.
Qed.

(** X17 - the CWE and severity dictionaries are read for flagged units
    only: when no unit is flagged the outcome of the loop does not depend on
    them at all, and a run that completes emits no finding. *)
Theorem unflagged_run_ignores_cwe_and_severity
        (v : VulnResult) (c c' : CweResult) (s s' : SevResult)
        (functions : list FunctionUnit) :
  (forall i, i < length functions -> vulnerable v i = false) ->
  fuse v c s functions = fuse v c' s' functions /\
  (forall fs, fuse v c s functions = inr fs -> fs = []).
Proof.
  intros H. split.
  - unfold fuse. apply fuse_from_unflagged. intros j Hj. apply H. lia.
  - intros fs Hf.
    pose proof (@finding_ids v c s functions fs Hf) as Hids.
    assert (Hnil : vulnerable_indices v (length functions) = []).
    { destruct (vulnerable_indices v (length functions)) as [|i more] eqn:E; [reflexivity|].
      assert (Hi : In i (vulnerable_indices v (length functions))) by (rewrite E; now left).
      apply vulnerable_indices_spec in Hi as [Hlt Hv]. rewrite (H i Hlt) in Hv.
      discriminate. }
    rewrite Hnil in Hids. destruct fs; [reflexivity | discriminate].
Qed.

Lemma unflagged_run_ignores_cwe_and_severity_witness :
  fuse {| batch_vul_pred := Some [0; 0]%Z; batch_vul_pred_prob := None;
          batch_line_scores := None |} no_cwe no_sev [unit_5_6; unit_7_8]
  = fuse {| batch_vul_pred := Some [0; 0]%Z; batch_vul_pred_prob := None;
            batch_line_scores := None |}
         {| cwe_id := Some []; cwe_id_prob := Some [] |}
         {| batch_sev_class := Some []; batch_sev_score := None |}
         [unit_5_6; unit_7_8].
Proof.
  apply (@unflagged_run_ignores_cwe_and_severity
           {| batch_vul_pred := Some [0; 0]%Z; batch_vul_pred_prob := None;
              batch_line_scores := None |}
           no_cwe {| cwe_id := Some []; cwe_id_prob := Some [] |}
           no_sev {| batch_sev_class := Some []; batch_sev_score := None |}
           [unit_5_6; unit_7_8]).
  intros i Hi. destruct i as [|[|i]]; [reflexivity | reflexivity | cbn in Hi; lia].
Defined.

(** * Exceptions that leave [analyze_file] *)

Section ProcessFacts.
Context {T : CharTables}.
Variable read_text : pystr -> R pystr.
Variable main : list pystr -> bool -> R VulnResult.
Variable main_cwe : list pystr -> bool -> R CweResult.
Variable main_sev : list pystr -> bool -> R SevResult.

(** The branch for an empty list of functions is never taken. *)
Lemma process_analyze_body_unfold (file_path : pystr) :
  Process.analyze_body read_text main main_cwe main_sev file_path =
  (code <~ read_text file_path ;;
   vuln_result <~ main (function_codes_of (extract_functions code)) false ;;
   cwe_result <~ main_cwe (function_codes_of (extract_functions code)) false ;;
   sev_result <~ main_sev (function_codes_of (extract_functions code)) false ;;
   vulnerabilities <~ lift (fuse vuln_result cwe_result sev_result
                                 (extract_functions code)) ;;
   inr {| vulnerabilities := vulnerabilities; errors := [] |}).
Proof.
  unfold Process.analyze_body. destruct (read_text file_path) as [x|code]; [reflexivity|].
  cbn [bindR]. pose proof (extract_functions_not_nil code) as Hne.
  destruct (extract_functions code); [congruence | reflexivity].
Qed.

(** A result returned by [analyze_file] never mixes findings and errors. *)
Lemma process_result_shape (file_path : pystr) (result : AnalysisResult) :
  Process.analyze_file read_text main main_cwe main_sev file_path = inr result ->
  errors result = [] \/
  (vulnerabilities result = [] /\ length (errors result) = 1).
Proof.
  unfold Process.analyze_file. rewrite process_analyze_body_unfold.
  destruct (read_text file_path) as [[e|b]|code];
    [intros [= <-]; right; split; reflexivity | discriminate |]. cbn [bindR].
  destruct (main _ false) as [[e|b]|vr];
    [intros [= <-]; right; split; reflexivity | discriminate |]. cbn [bindR].
  destruct (main_cwe _ false) as [[e|b]|cr];
    [intros [= <-]; right; split; reflexivity | discriminate |]. cbn [bindR].
  destruct (main_sev _ false) as [[e|b]|sr];
    [intros [= <-]; right; split; reflexivity | discriminate |]. cbn [bindR].
  destruct (fuse vr cr sr _) as [e|fs]; cbn [lift bindR]; intros [= <-].
  - right. split; reflexivity.
  - left. reflexivity.
Qed.

End ProcessFacts.

(** With collaborators that raise instances of [Exception] only,
    nothing leaves [analyze_file] and its result is that of the model
    restricted to such collaborators. *)
Lemma process_analyze_file_lift
      {T : CharTables}
      (read_text : pystr -> M pystr)
      (main : list pystr -> bool -> M VulnResult)
      (main_cwe : list pystr -> bool -> M CweResult)
      (main_sev : list pystr -> bool -> M SevResult)
      (file_path : pystr) :
  Process.analyze_file (fun p => lift (read_text p))
                       (fun codes gpu => lift (main codes gpu))
                       (fun codes gpu => lift (main_cwe codes gpu))
                       (fun codes gpu => lift (main_sev codes gpu)) file_path
  = inr (analyze_file read_text main main_cwe main_sev file_path).
Proof.
  unfold Process.analyze_file, analyze_file.
  rewrite process_analyze_body_unfold, analyze_body_unfold.
  destruct (read_text file_path) as [e|code]; [reflexivity|]. cbn [lift bindR bind].
  destruct (main _ false) as [e|vr]; [reflexivity|]. cbn [lift bindR bind].
  destruct (main_cwe _ false) as [e|cr]; [reflexivity|]. cbn [lift bindR bind].
  destruct (main_sev _ false) as [e|sr]; [reflexivity|]. cbn [lift bindR bind].
  destruct (fuse vr cr sr _) as [e|fs]; reflexivity.
Qed.

(** C8, as stated, fails: when a classifier calls [sys.exit(3)], the
    [SystemExit] is not an instance of [Exception]; it is not converted to
    a result and leaves [analyze_file]. *)
Lemma system_exit_leaves_analyze_file :
  Process.analyze_file (T := ascii_tables)
    (fun p => lift (read_empty p)) main_exits
    (fun codes gpu => lift (main_cwe_none codes gpu))
    (fun codes gpu => lift (main_sev_none codes gpu)) (py "empty.c")
  = inl (SystemExit 3) /\
  ~ (exists result,
        Process.analyze_file (T := ascii_tables)
          (fun p => lift (read_empty p)) main_exits
          (fun codes gpu => lift (main_cwe_none codes gpu))
          (fun codes gpu => lift (main_sev_none codes gpu)) (py "empty.c")
        = inr result).
Proof.
  split; [vm_compute; reflexivity|].
  intros (result & H). vm_compute in H. discriminate.
Qed.

(** C8, amended - every instance of [Exception] raised while analysing
    a file (by reading the file, by a classifier or by the fusion loop;
    extraction never raises) is caught at the boundary of [analyze_file] and
    becomes a result with no findings and the single error
    ["Analysis failed: "] followed by [str(e)].  An exception that is not an
    instance of [Exception] ([SystemExit], [KeyboardInterrupt],
    [GeneratorExit]) raised by the file read or a classifier is not caught:
    it leaves [analyze_file] unchanged.  When nothing raises, the result
    carries the fused findings and no error. *)
Theorem analyze_file_catches_exceptions_only
        {T : CharTables}
        (read_text : pystr -> R pystr)
        (main : list pystr -> bool -> R VulnResult)
        (main_cwe : list pystr -> bool -> R CweResult)
        (main_sev : list pystr -> bool -> R SevResult)
        (file_path : pystr) :
  let outcome := Process.analyze_file read_text main main_cwe main_sev file_path in
  (forall e, read_text file_path = inl (IsException e) -> outcome = inr (failed e)) /\
  (forall b, read_text file_path = inl (NotException b) -> outcome = inl b) /\
  (forall code, read_text file_path = inr code ->
     let functions := extract_functions code in
     let function_codes := function_codes_of functions in
     (forall e, main function_codes false = inl (IsException e) ->
                outcome = inr (failed e)) /\
     (forall b, main function_codes false = inl (NotException b) ->
                outcome = inl b) /\
     (forall vr, main function_codes false = inr vr ->
        (forall e, main_cwe function_codes false = inl (IsException e) ->
                   outcome = inr (failed e)) /\
        (forall b, main_cwe function_codes false = inl (NotException b) ->
                   outcome = inl b) /\
        (forall cr, main_cwe function_codes false = inr cr ->
           (forall e, main_sev function_codes false = inl (IsException e) ->
                      outcome = inr (failed e)) /\
           (forall b, main_sev function_codes false = inl (NotException b) ->
                      outcome = inl b) /\
           (forall sr, main_sev function_codes false = inr sr ->
              (forall e, fuse vr cr sr functions = inl e ->
                         outcome = inr (failed e)) /\
              (forall fs, fuse vr cr sr functions = inr fs ->
                          outcome = inr {| vulnerabilities := fs; errors := [] |}))))).
Proof.
  cbv zeta. unfold Process.analyze_file. rewrite process_analyze_body_unfold.
  split; [intros e ->; reflexivity|]. split; [intros b ->; reflexivity|].
  intros code ->. cbn [bindR].
  split; [intros e ->; reflexivity|]. split; [intros b ->; reflexivity|].
  intros vr ->. cbn [bindR].
  split; [intros e ->; reflexivity|]. split; [intros b ->; reflexivity|].
  intros cr ->. cbn [bindR].
  split; [intros e ->; reflexivity|]. split; [intros b ->; reflexivity|].
  intros sr ->. cbn [bindR].
  split; [intros e ->; reflexivity | intros fs ->; reflexivity].
Qed.

Lemma analyze_file_catches_exceptions_only_witness :
  Process.analyze_file (T := ascii_tables) read_denied main_exits
    (fun codes gpu => lift (main_cwe_none codes gpu))
    (fun codes gpu => lift (main_sev_none codes gpu)) (py "a.c")
  = inr {| vulnerabilities := [];
           errors := [py "Analysis failed: [Errno 13] Permission denied: 'a.c'"] |}.
Proof.
  exact (proj1 (analyze_file_catches_exceptions_only (T := ascii_tables)
                  read_denied main_exits
                  (fun codes gpu => lift (main_cwe_none codes gpu))
                  (fun codes gpu => lift (main_sev_none codes gpu)) (py "a.c"))
               (OtherError (py "[Errno 13] Permission denied: 'a.c'")) eq_refl).
Defined.

(** * Properties of [main_analyze] *)



(** X14 - a run prints at most one document, and none at all only when
    an exception left [main_analyze].  A printed document never holds
    findings together with errors nor more than one error.  When
    [main_analyze] returns, exactly one document was printed: the result of
    [analyze_file] on the argument, with [indent=2]. *)
Theorem main_analyze_prints_at_most_one_document
        {T : CharTables}
        (path_exists : pystr -> R bool)
        (print_json : Printed -> R unit)
        (read_text : pystr -> R pystr)
        (main : list pystr -> bool -> R VulnResult)
        (main_cwe : list pystr -> bool -> R CweResult)
        (main_sev : list pystr -> bool -> R SevResult)
        (argv : list pystr) :
  let run := Process.main_analyze path_exists print_json read_text main
                                  main_cwe main_sev argv in
  length (stdout run) <= 1 /\
  (forall d, In d (stdout run) ->
     print_json d = inr tt /\
     (errors (document d) = [] \/
      (vulnerabilities (document d) = [] /\ length (errors (document d)) = 1))) /\
  (stdout run = [] -> exists x, ending run = inl x) /\
  (ending run = inr tt ->
   exists result,
     stdout run = [ {| document := result; indent := Some 2 |} ] /\
     Process.analyze_file read_text main main_cwe main_sev (nth 1 argv []) = inr result).
Proof.
  cbv zeta. unfold Process.main_analyze.
  assert (Husage : forall doc,
    vulnerabilities (document doc) = [] /\ length (errors (document doc)) = 1 ->
    let run := Process.print_then print_json doc (Process.sys_exit 1) in
    length (stdout run) <= 1 /\
    (forall d, In d (stdout run) ->
       print_json d = inr tt /\
       (errors (document d) = [] \/
        (vulnerabilities (document d) = [] /\ length (errors (document d)) = 1))) /\
    (stdout run = [] -> exists x, ending run = inl x) /\
    (ending run = inr tt ->
     exists result,
       stdout run = [ {| document := result; indent := Some 2 |} ] /\
       Process.analyze_file read_text main main_cwe main_sev (nth 1 argv []) = inr result)).
  { intros doc Hdoc. cbv zeta. unfold Process.print_then, Process.sys_exit.
    destruct (print_json doc) as [x|[]] eqn:Hp; cbn [stdout ending length].
    - split; [lia|]. split; [intros d []|]. split; [eauto | discriminate].
    - split; [lia|]. split; [|split; discriminate].
      intros d [<-|[]]. split; [exact Hp | now right]. }
  destruct (negb (length argv =? 2)).
  - apply Husage. split; reflexivity.
  - destruct (path_exists (nth 1 argv [])) as [x|[|]].
    + cbn [stdout ending length]. split; [lia|]. split; [intros d []|].
      split; [eauto | discriminate].
    + destruct (Process.analyze_file _ _ _ _ _) as [b|result] eqn:Ha.
      * cbn [stdout ending length]. split; [lia|]. split; [intros d []|].
        split; [eauto | discriminate].
      * unfold Process.print_then.
        destruct (print_json _) as [x|[]] eqn:Hp; cbn [stdout ending length].
        -- split; [lia|]. split; [intros d []|]. split; [eauto | discriminate].
        -- split; [lia|]. split; [|split; [discriminate|]].
           ++ intros d [<-|[]]. split; [exact Hp|]. cbn [document].
              exact (process_result_shape _ _ _ _ _ Ha).
           ++ intros _. now exists result.
    + apply Husage. split; reflexivity.
Qed.

Lemma main_analyze_prints_at_most_one_document_witness :
  exists result,
    stdout (Process.main_analyze (T := ascii_tables) exists_always print_ok read_denied
              main_exits (fun codes gpu => lift (main_cwe_none codes gpu))
              (fun codes gpu => lift (main_sev_none codes gpu))
              [py "analyze.py"; py "a.c"])
    = [ {| document := result; indent := Some 2 |} ].
Proof.
  destruct (main_analyze_prints_at_most_one_document (T := ascii_tables)
              exists_always print_ok read_denied main_exits
              (fun codes gpu => lift (main_cwe_none codes gpu))
              (fun codes gpu => lift (main_sev_none codes gpu))
              [py "analyze.py"; py "a.c"]) as (_ & _ & _ & H).
  destruct (H eq_refl) as (result & Hs & _). now exists result.
Defined.

(** X15 - unless there is exactly one argument and [exists()] returns
    [True], the file is not read and no classifier is invoked: the run is
    the same whatever reading the file and the three classifiers would have
    done.  This covers the usage error, the missing file and an [exists()]
    that raises. *)
Theorem main_analyze_rejects_before_analysis
        {T : CharTables}
        (path_exists : pystr -> R bool)
        (print_json : Printed -> R unit)
        (read_text read_text' : pystr -> R pystr)
        (main main' : list pystr -> bool -> R VulnResult)
        (main_cwe main_cwe' : list pystr -> bool -> R CweResult)
        (main_sev main_sev' : list pystr -> bool -> R SevResult)
        (argv : list pystr) :
  length argv <> 2 \/ path_exists (nth 1 argv []) <> inr true ->
  Process.main_analyze path_exists print_json read_text main main_cwe main_sev argv
  = Process.main_analyze path_exists print_json read_text' main' main_cwe' main_sev' argv.
Proof.
  unfold Process.main_analyze. intros H.
  destruct (Nat.eqb_spec (length argv) 2) as [Hlen|Hlen]; cbn [negb]; [|reflexivity].
  destruct (path_exists (nth 1 argv [])) as [x|[|]]; try reflexivity.
  destruct H as [H|H]; [contradiction | congruence].
Qed.

Lemma main_analyze_rejects_before_analysis_witness :
  Process.main_analyze (T := ascii_tables) exists_too_long print_ok read_denied
    main_exits (fun codes gpu => lift (main_cwe_none codes gpu))
    (fun codes gpu => lift (main_sev_none codes gpu)) [py "analyze.py"; py "a.c"]
  = Process.main_analyze (T := ascii_tables) exists_too_long print_ok
      (fun p => lift (read_nested p)) (fun codes gpu => lift (main_flag_all codes gpu))
      (fun codes gpu => lift (main_cwe_none codes gpu))
      (fun codes gpu => lift (main_sev_none codes gpu)) [py "analyze.py"; py "a.c"].
Proof.
  apply (main_analyze_rejects_before_analysis (T := ascii_tables) exists_too_long
           print_ok read_denied (fun p => lift (read_nested p))
           main_exits (fun codes gpu => lift (main_flag_all codes gpu))
           (fun codes gpu => lift (main_cwe_none codes gpu))
           (fun codes gpu => lift (main_cwe_none codes gpu))
           (fun codes gpu => lift (main_sev_none codes gpu))
           (fun codes gpu => lift (main_sev_none codes gpu))
           [py "analyze.py"; py "a.c"]).
  right. discriminate.
Defined.
